(** * skew.awsclient: credential resolution and request execution

    A shallow embedding of [skew/awsclient.py] and the properties of its
    three pieces of logic: the [json_encoder] hook, the credential
    precedence of [AWSClient.__init__] / [AWSClient._create_client], and the
    pagination / retry policy of [AWSClient.call].

    The cloud SDK (boto3 / botocore), jmespath, placebo and the clock are
    external collaborators.  Their objects are modelled as records of the
    methods the wrapper invokes on them, every method returning an
    [outcome] (a value or a raised exception); each interaction is recorded
    in an event trace, so that "how many sleeps" or "was the role
    assumed" are questions about that trace. *)

From Stdlib Require Import ZArith NArith Lia Bool Ascii String.
From stdpp Require Import base option list strings gmap.

Open Scope string_scope.
Open Scope list_scope.
Set Warnings "-register-all".

(** ** Python values *)

(** [datetime.datetime]: the calendar fields and, for an aware value, the
    UTC offset in microseconds ([tzinfo.utcoffset]). *)
Record datetime := mkDatetime {
  year : N; month : N; day : N;
  hour : N; minute : N; second : N; microsecond : N;
  utcoffset : option Z
}.

(** The values that flow through the wrapper: configuration entries,
    keyword arguments and operation results.  Dicts are association lists
    (Python dicts are ordered); [VDate] is a [datetime.date], which is not an
    instance of [datetime.datetime]. *)
Inductive pyval :=
| VNone
| VBool (b : bool)
| VInt (z : Z)
| VStr (s : string)
| VList (l : list pyval)
| VDict (d : list (string * pyval))
| VDatetime (dt : datetime)
| VDate (y m d : N).

(** Python truthiness, as used by [if x:]. *)
Definition truthy (v : pyval) : bool :=
  match v with
  | VNone => false
  | VBool b => b
  | VInt z => negb (z =? 0)%Z
  | VStr s => negb (String.eqb s "")
  | VList l => match l with [] => false | _ => true end
  | VDict d => match d with [] => false | _ => true end
  | VDatetime _ => true
  | VDate _ _ _ => true
  end.

(** [x is None] *)
Definition is_None (v : pyval) : bool :=
  match v with VNone => true | _ => false end.

(** [isinstance(obj, datetime.datetime)] *)
Definition isinstance_datetime (v : pyval) : bool :=
  match v with VDatetime _ => true | _ => false end.

(** ** Exceptions and outcomes *)

(** The handlers of [call] distinguish three classes: [ClientError] (caught
    first, inspected through [str(e)]), any other subclass of [Exception],
    and exceptions deriving from [BaseException] only ([KeyboardInterrupt],
    [SystemExit], ...), which no handler of this module catches. *)
Inductive exn :=
| ClientError (msg : string)
| OtherException (cls msg : string)
| BaseOnly (cls : string).

Inductive outcome (A : Type) :=
| Returns (a : A)
| Raises (e : exn).
Arguments Returns {A} a.
Arguments Raises {A} e.

Definition obind {A B} (r : outcome A) (k : A → outcome B) : outcome B :=
  match r with
  | Returns a => k a
  | Raises e => Raises e
  end.

(** ** Strings: [needle in haystack] *)

Fixpoint startswith (p s : string) : bool :=
  match p, s with
  | EmptyString, _ => true
  | String a p', String b s' => Ascii.eqb a b && startswith p' s'
  | String _ _, EmptyString => false
  end.

(** Python's [needle in hay] on two [str]. *)
Fixpoint str_in (needle hay : string) : bool :=
  startswith needle hay ||
  match hay with
  | EmptyString => false
  | String _ hay' => str_in needle hay'
  end.

(** ** [datetime.isoformat()]

    The standard library's rendering with its default arguments
    ([sep='T'], [timespec='auto']): [YYYY-MM-DDTHH:MM:SS], then [.ffffff]
    when the microsecond field is not zero, then the UTC offset
    [+HH:MM[:SS[.ffffff]]] of an aware value. *)

Definition digit (n : N) : Ascii.ascii :=
  Ascii.ascii_of_N (48 + n mod 10).

Fixpoint decimal_aux (fuel : nat) (n : N) (acc : string) : string :=
  match fuel with
  | O => acc
  | S fuel' =>
      let acc' := String (digit n) acc in
      if (n / 10 =? 0)%N then acc' else decimal_aux fuel' (n / 10) acc'
  end.

(** [str(n)] for a natural number. *)
Definition decimal (n : N) : string :=
  decimal_aux (S (N.to_nat (N.log2 n))) n "".

Fixpoint zeros (k : nat) : string :=
  match k with
  | O => ""
  | S k' => String "0"%char (zeros k')
  end.

(** ["%0wd" % n] *)
Definition fmt0 (w : nat) (n : N) : string :=
  let s := decimal n in
  zeros (w - String.length s) +:+ s.

Definition format_time (dt : datetime) : string :=
  fmt0 2 (hour dt) +:+ ":" +:+ fmt0 2 (minute dt) +:+ ":" +:+ fmt0 2 (second dt)
  +:+ (if (microsecond dt =? 0)%N then "" else "." +:+ fmt0 6 (microsecond dt)).

Definition format_offset (off : option Z) : string :=
  match off with
  | None => ""
  | Some o =>
      let sign := if (o <? 0)%Z then "-" else "+" in
      let a := Z.to_N (Z.abs o) in
      let hh := (a / 3600000000)%N in
      let mm := ((a mod 3600000000) / 60000000)%N in
      let ss := ((a mod 3600000000) mod 60000000)%N in
      sign +:+ fmt0 2 hh +:+ ":" +:+ fmt0 2 mm
      +:+ (if (ss =? 0)%N then ""
           else ":" +:+ fmt0 2 (ss / 1000000)
                +:+ (if (ss mod 1000000 =? 0)%N then ""
                     else "." +:+ fmt0 6 (ss mod 1000000)))
  end.

Definition isoformat (dt : datetime) : string :=
  fmt0 4 (year dt) +:+ "-" +:+ fmt0 2 (month dt) +:+ "-" +:+ fmt0 2 (day dt)
  +:+ "T" +:+ format_time dt +:+ format_offset (utcoffset dt).

(** ** [json_encoder] *)

Definition json_encoder (obj : pyval) : pyval :=
  match obj with
  | VDatetime dt => VStr (isoformat dt)
  | _ => obj
  end.

(** ** Dict access *)

Fixpoint assoc (k : string) (d : list (string * pyval)) : option pyval :=
  match d with
  | [] => None
  | (k', v) :: d' => if String.eqb k k' then Some v else assoc k d'
  end.

Definition KeyError (k : string) : exn := OtherException "KeyError" k.
Definition TypeError (m : string) : exn := OtherException "TypeError" m.
Definition AttributeError (m : string) : exn := OtherException "AttributeError" m.

(** [v[k]] for a string key: only a dict can be subscripted that way. *)
Definition getitem (v : pyval) (k : string) : outcome pyval :=
  match v with
  | VDict d =>
      match assoc k d with
      | Some x => Returns x
      | None => Raises (KeyError k)
      end
  | _ => Raises (TypeError "object is not subscriptable by str")
  end.

(** [**v] in a call: only a dict can be unpacked into keyword arguments;
    for anything else the call raises [TypeError] before the callee is
    entered. *)
Definition NotAMapping : exn :=
  TypeError "argument after ** must be a mapping".

Definition unpack (v : pyval) : outcome (list (string * pyval)) :=
  match v with
  | VDict d => Returns d
  | _ => Raises NotAMapping
  end.

(** [v == s] for a string literal [s]. *)
Definition eq_str (v : pyval) (s : string) : bool :=
  match v with
  | VStr t => String.eqb t s
  | _ => false
  end.

(** ** The external collaborators, as records of their methods *)

Abbreviation kwargs := (list (string * pyval)).

(** A compiled jmespath expression ([jmespath.parser.ParsedResult]); it
    defines neither [__bool__] nor [__len__], so it is always truthy. *)
Record ParsedResult := {
  expression : string;
  search : pyval → outcome pyval
}.

(** botocore's [PageIterator]: the outcomes of the successive page requests
    it will issue when consumed, and the aggregation [build_full_result]
    applies to the pages it received. *)
Record PageIterator := {
  page_requests : list (outcome pyval);
  aggregate : list pyval → pyval
}.

Record Paginator := {
  paginate : kwargs → outcome PageIterator
}.

(** A client method obtained by [getattr(client, op_name)]: its outcome may
    depend on the keyword arguments and on how many times it has already been
    invoked. *)
Abbreviation Operation := (kwargs → nat → outcome pyval).

(** The service client handle.  [can_paginate] answers for a name the
    service knows and raises ([KeyError]) for one it does not. *)
Record Client := {
  can_paginate : string → outcome bool;
  get_paginator : string → outcome Paginator;
  getattr : string → outcome Operation
}.

(** [botocore.config.Config(...)] as passed to [session.client]. *)
Record Config := {
  connect_timeout : Z;
  read_timeout : Z;
  retries_max_attempts : Z;
  retries_mode : string
}.

(** How a [boto3.Session] is opened.  [SessKwargs] carries the keyword
    arguments a dict was unpacked into; [SessDefault] is [boto3.Session()]
    with no argument, the SDK's ambient credential discovery. *)
Inductive session_args :=
| SessKwargs (kw : kwargs)
| SessProfile (profile_name : pyval)
| SessKeys (aws_access_key_id aws_secret_access_key aws_session_token : pyval)
| SessDefault.

Record Session := {
  client : string → Config → pyval → outcome Client
}.

Record StsClient := {
  assume_role : pyval → string → option pyval → outcome pyval
}.

Record Pill := {
  record : outcome unit;
  playback : outcome unit
}.

Record Placebo := {
  attach : Session → pyval → outcome Pill
}.

(** The skew configuration: [config[section][name]] is a dict of settings;
    the wrapper reads [config['accounts'][account_id]]. *)
Abbreviation Account := (gmap string pyval).
Abbreviation SkewConfig := (gmap string (gmap string (gmap string pyval))).

(** The module's imports. [get_config] comes from [skew.config]. *)
Record Env := {
  boto3_Session : session_args → outcome Session;
  boto3_client : string → outcome StsClient;
  jmespath_compile : string → outcome ParsedResult;
  get_config : outcome SkewConfig
}.

(** ** Events *)

Inductive event :=
| EvLogDebug
| EvSleep (secs : Z)
| EvInvoke (op_name : string) (kw : kwargs) (attempt : nat)
| EvGetPaginator (op_name : string)
| EvPaginate (kw : kwargs)
| EvPageRequest (i : nat)
| EvStsClient
| EvAssumeRole (RoleArn : pyval) (RoleSessionName : string) (ExternalId : option pyval)
| EvSession (args : session_args)
| EvPlaceboAttach (dir : pyval)
| EvPlaceboRecord
| EvPlaceboPlayback
| EvClient (service : string) (cfg : Config) (region : pyval).

(** ** The wrapper object *)

Record AWSClient := {
  _config : SkewConfig;
  _service_name : string;
  _region_name : pyval;
  _account_id : string;
  _has_credentials : bool;
  aws_creds : pyval;
  _profile : pyval;
  _external_id : pyval;
  _role_arn : pyval;
  placebo : option Placebo;
  placebo_dir : pyval;
  placebo_mode : pyval;
  _client : option Client
}.

(** [self.attr = v], one function per attribute. *)
Definition set__config (v : SkewConfig) (self : AWSClient) : AWSClient :=
  {| _config := v;
     _service_name := _service_name self;
     _region_name := _region_name self;
     _account_id := _account_id self;
     _has_credentials := _has_credentials self;
     aws_creds := aws_creds self;
     _profile := _profile self;
     _external_id := _external_id self;
     _role_arn := _role_arn self;
     placebo := placebo self;
     placebo_dir := placebo_dir self;
     placebo_mode := placebo_mode self;
     _client := _client self |}.

Definition set__service_name (v : string) (self : AWSClient) : AWSClient :=
  {| _config := _config self;
     _service_name := v;
     _region_name := _region_name self;
     _account_id := _account_id self;
     _has_credentials := _has_credentials self;
     aws_creds := aws_creds self;
     _profile := _profile self;
     _external_id := _external_id self;
     _role_arn := _role_arn self;
     placebo := placebo self;
     placebo_dir := placebo_dir self;
     placebo_mode := placebo_mode self;
     _client := _client self |}.

Definition set__region_name (v : pyval) (self : AWSClient) : AWSClient :=
  {| _config := _config self;
     _service_name := _service_name self;
     _region_name := v;
     _account_id := _account_id self;
     _has_credentials := _has_credentials self;
     aws_creds := aws_creds self;
     _profile := _profile self;
     _external_id := _external_id self;
     _role_arn := _role_arn self;
     placebo := placebo self;
     placebo_dir := placebo_dir self;
     placebo_mode := placebo_mode self;
     _client := _client self |}.

Definition set__account_id (v : string) (self : AWSClient) : AWSClient :=
  {| _config := _config self;
     _service_name := _service_name self;
     _region_name := _region_name self;
     _account_id := v;
     _has_credentials := _has_credentials self;
     aws_creds := aws_creds self;
     _profile := _profile self;
     _external_id := _external_id self;
     _role_arn := _role_arn self;
     placebo := placebo self;
     placebo_dir := placebo_dir self;
     placebo_mode := placebo_mode self;
     _client := _client self |}.

Definition set__has_credentials (v : bool) (self : AWSClient) : AWSClient :=
  {| _config := _config self;
     _service_name := _service_name self;
     _region_name := _region_name self;
     _account_id := _account_id self;
     _has_credentials := v;
     aws_creds := aws_creds self;
     _profile := _profile self;
     _external_id := _external_id self;
     _role_arn := _role_arn self;
     placebo := placebo self;
     placebo_dir := placebo_dir self;
     placebo_mode := placebo_mode self;
     _client := _client self |}.

Definition set_aws_creds (v : pyval) (self : AWSClient) : AWSClient :=
  {| _config := _config self;
     _service_name := _service_name self;
     _region_name := _region_name self;
     _account_id := _account_id self;
     _has_credentials := _has_credentials self;
     aws_creds := v;
     _profile := _profile self;
     _external_id := _external_id self;
     _role_arn := _role_arn self;
     placebo := placebo self;
     placebo_dir := placebo_dir self;
     placebo_mode := placebo_mode self;
     _client := _client self |}.

Definition set__profile (v : pyval) (self : AWSClient) : AWSClient :=
  {| _config := _config self;
     _service_name := _service_name self;
     _region_name := _region_name self;
     _account_id := _account_id self;
     _has_credentials := _has_credentials self;
     aws_creds := aws_creds self;
     _profile := v;
     _external_id := _external_id self;
     _role_arn := _role_arn self;
     placebo := placebo self;
     placebo_dir := placebo_dir self;
     placebo_mode := placebo_mode self;
     _client := _client self |}.

Definition set__external_id (v : pyval) (self : AWSClient) : AWSClient :=
  {| _config := _config self;
     _service_name := _service_name self;
     _region_name := _region_name self;
     _account_id := _account_id self;
     _has_credentials := _has_credentials self;
     aws_creds := aws_creds self;
     _profile := _profile self;
     _external_id := v;
     _role_arn := _role_arn self;
     placebo := placebo self;
     placebo_dir := placebo_dir self;
     placebo_mode := placebo_mode self;
     _client := _client self |}.

Definition set__role_arn (v : pyval) (self : AWSClient) : AWSClient :=
  {| _config := _config self;
     _service_name := _service_name self;
     _region_name := _region_name self;
     _account_id := _account_id self;
     _has_credentials := _has_credentials self;
     aws_creds := aws_creds self;
     _profile := _profile self;
     _external_id := _external_id self;
     _role_arn := v;
     placebo := placebo self;
     placebo_dir := placebo_dir self;
     placebo_mode := placebo_mode self;
     _client := _client self |}.

Definition set_placebo (v : option Placebo) (self : AWSClient) : AWSClient :=
  {| _config := _config self;
     _service_name := _service_name self;
     _region_name := _region_name self;
     _account_id := _account_id self;
     _has_credentials := _has_credentials self;
     aws_creds := aws_creds self;
     _profile := _profile self;
     _external_id := _external_id self;
     _role_arn := _role_arn self;
     placebo := v;
     placebo_dir := placebo_dir self;
     placebo_mode := placebo_mode self;
     _client := _client self |}.

Definition set_placebo_dir (v : pyval) (self : AWSClient) : AWSClient :=
  {| _config := _config self;
     _service_name := _service_name self;
     _region_name := _region_name self;
     _account_id := _account_id self;
     _has_credentials := _has_credentials self;
     aws_creds := aws_creds self;
     _profile := _profile self;
     _external_id := _external_id self;
     _role_arn := _role_arn self;
     placebo := placebo self;
     placebo_dir := v;
     placebo_mode := placebo_mode self;
     _client := _client self |}.

Definition set_placebo_mode (v : pyval) (self : AWSClient) : AWSClient :=
  {| _config := _config self;
     _service_name := _service_name self;
     _region_name := _region_name self;
     _account_id := _account_id self;
     _has_credentials := _has_credentials self;
     aws_creds := aws_creds self;
     _profile := _profile self;
     _external_id := _external_id self;
     _role_arn := _role_arn self;
     placebo := placebo self;
     placebo_dir := placebo_dir self;
     placebo_mode := v;
     _client := _client self |}.

Definition set__client (v : option Client) (self : AWSClient) : AWSClient :=
  {| _config := _config self;
     _service_name := _service_name self;
     _region_name := _region_name self;
     _account_id := _account_id self;
     _has_credentials := _has_credentials self;
     aws_creds := aws_creds self;
     _profile := _profile self;
     _external_id := _external_id self;
     _role_arn := _role_arn self;
     placebo := placebo self;
     placebo_dir := placebo_dir self;
     placebo_mode := placebo_mode self;
     _client := v |}.

(** The object before [__init__] has run.  Its fields are placeholders:
    [__init__] assigns every attribute before it reads it, and [_client],
    the last one assigned, is [None] until then. *)
Definition fresh : AWSClient :=
  {| _config := ∅; _service_name := ""; _region_name := VNone;
     _account_id := ""; _has_credentials := false; aws_creds := VNone;
     _profile := VNone; _external_id := VNone; _role_arn := VNone;
     placebo := None; placebo_dir := VNone; placebo_mode := VNone;
     _client := None |}.

Definition service_name (self : AWSClient) : string := _service_name self.
Definition region_name (self : AWSClient) : pyval := _region_name self.
Definition account_id (self : AWSClient) : string := _account_id self.
Definition profile (self : AWSClient) : pyval := _profile self.
Definition external_id (self : AWSClient) : pyval := _external_id self.
Definition role_arn (self : AWSClient) : pyval := _role_arn self.

(** ** The execution monad

    A method runs on a state holding the object it was called on and the
    trace of interactions so far.  It returns a value, raises, or (for the
    retry loop) runs out of fuel, which is [None]. *)

Record State := {
  st_self : AWSClient;
  st_trace : list event
}.

Definition M (A : Type) : Type := State → option (outcome A) * State.

Definition ret {A} (a : A) : M A := λ st, (Some (Returns a), st).

Definition bind {A B} (m : M A) (k : A → M B) : M B :=
  λ st,
    match m st with
    | (Some (Returns a), st') => k a st'
    | (Some (Raises e), st') => (Some (Raises e), st')
    | (None, st') => (None, st')
    end.

#[global] Instance M_ret : MRet M := @ret.
#[global] Instance M_bind : MBind M := λ A B k m, bind m k.

Definition raise {A} (e : exn) : M A := λ st, (Some (Raises e), st).
Definition lift {A} (o : outcome A) : M A := λ st, (Some o, st).
Definition out_of_fuel {A} : M A := λ st, (None, st).
Definition get_self : M AWSClient := λ st, (Some (Returns (st_self st)), st).
Definition assign (f : AWSClient → AWSClient) : M unit :=
  λ st, (Some (Returns tt),
         {| st_self := f (st_self st); st_trace := st_trace st |}).
Definition emit (ev : event) : M unit :=
  λ st, (Some (Returns tt),
         {| st_self := st_self st; st_trace := st_trace st ++ [ev] |}).

(** ** [AWSClient._create_client] *)

Definition new_session (env : Env) (args : session_args) : M Session :=
  emit (EvSession args);; lift (boto3_Session env args).

Definition sts_assume_role (sts : StsClient) (arn : pyval) (name : string)
    (ext : option pyval) : M pyval :=
  emit (EvAssumeRole arn name ext);; lift (assume_role sts arn name ext).

Definition client_config : Config :=
  {| connect_timeout := 5; read_timeout := 60;
     retries_max_attempts := 30; retries_mode := "standard" |}.

Definition _create_client (env : Env) : M Client :=
  self ← get_self;
  session ←
    (if truthy (aws_creds self) then
       kw ← lift (unpack (aws_creds self));
       new_session env (SessKwargs kw)
     else if truthy (profile self) then
       new_session env (SessProfile (profile self))
     else
       sts ← (emit EvStsClient;; lift (boto3_client env "sts"));
       assumed_role ←
         (if truthy (external_id self) then
            sts_assume_role sts (role_arn self) "skew" (Some (external_id self))
          else
            sts_assume_role sts (role_arn self) "skew" None);
       creds1 ← lift (getitem assumed_role "Credentials");
       access_key ← lift (getitem creds1 "AccessKeyId");
       creds2 ← lift (getitem assumed_role "Credentials");
       secret_key ← lift (getitem creds2 "SecretAccessKey");
       creds3 ← lift (getitem assumed_role "Credentials");
       token ← lift (getitem creds3 "SessionToken");
       new_session env (SessKeys access_key secret_key token));
  match placebo self with
  | Some plc =>
      if truthy (placebo_dir self) then
        pill ← (emit (EvPlaceboAttach (placebo_dir self));;
                lift (attach plc session (placebo_dir self)));
        if eq_str (placebo_mode self) "record" then
          emit EvPlaceboRecord;; lift (record pill)
        else if eq_str (placebo_mode self) "playback" then
          emit EvPlaceboPlayback;; lift (playback pill)
        else ret tt
      else ret tt
  | None => ret tt
  end;;
  emit (EvClient (service_name self) client_config
          (if truthy (region_name self) then region_name self else VNone));;
  lift (client session (service_name self) client_config
          (if truthy (region_name self) then region_name self else VNone)).

(** ** [AWSClient.__init__] *)

(** The keyword arguments the constructor reads.  [kw_config] is [None] when
    the key is absent or holds [None]; [kw_aws_creds] and [kw_placebo_dir]
    are what [kwargs.get] returns ([VNone] when absent); [kw_placebo_mode] is
    [None] when absent, where [kwargs.get] falls back to ['record']. *)
Record InitKwargs := {
  kw_config : option SkewConfig;
  kw_aws_creds : pyval;
  kw_placebo : option Placebo;
  kw_placebo_dir : pyval;
  kw_placebo_mode : option pyval
}.

(** [config['accounts'][account_id]] *)
Definition account_of (config : SkewConfig) (account_id : string)
    : outcome Account :=
  match config !! "accounts" with
  | None => Raises (KeyError "accounts")
  | Some accounts =>
      match accounts !! account_id with
      | None => Raises (KeyError account_id)
      | Some acct => Returns acct
      end
  end.

(** [d.get(k)] *)
Definition dict_get (d : Account) (k : string) : pyval :=
  match d !! k with
  | Some v => v
  | None => VNone
  end.

(** The configuration [__init__] uses. *)
Definition effective_config (env : Env) (kw : InitKwargs) : outcome SkewConfig :=
  match kw_config kw with
  | Some c => Returns c
  | None => get_config env
  end.

Definition __init__ (env : Env) (service_name : string) (region_name : pyval)
    (account_id : string) (kw : InitKwargs) : M unit :=
  config ← lift (effective_config env kw);
  assign (set__config config);;
  assign (set__service_name service_name);;
  assign (set__region_name region_name);;
  assign (set__account_id account_id);;
  assign (set__has_credentials false);;
  assign (set_aws_creds (kw_aws_creds kw));;
  assign (set__profile VNone);;
  assign (set__external_id VNone);;
  assign (set__role_arn VNone);;
  self ← get_self;
  (if is_None (aws_creds self) then
     acct ← lift (account_of (_config self) account_id);
     assign (set_aws_creds (dict_get acct "credentials"))
   else ret tt);;
  self ← get_self;
  (if is_None (aws_creds self) then
     acct ← lift (account_of (_config self) account_id);
     match acct !! "profile" with
     | Some p => assign (set__profile p)
     | None =>
         match acct !! "role_arn" with
         | Some r =>
             assign (set__role_arn r);;
             match acct !! "external_id" with
             | Some x => assign (set__external_id x)
             | None => ret tt
             end
         | None => ret tt
         end
     end
   else ret tt);;
  assign (set_placebo (kw_placebo kw));;
  assign (set_placebo_dir (kw_placebo_dir kw));;
  assign (set_placebo_mode (match kw_placebo_mode kw with
                            | Some m => m
                            | None => VStr "record"
                            end));;
  c ← _create_client env;
  assign (set__client (Some c)).

(** [AWSClient(service_name, region_name, account_id, **kwargs)]: the
    object [__init__] leaves (or the exception it raises) and the
    interactions it performed. *)
Definition new_AWSClient (env : Env) (service_name : string) (region_name : pyval)
    (account_id : string) (kw : InitKwargs)
    : option (outcome AWSClient) * list event :=
  match __init__ env service_name region_name account_id kw
          {| st_self := fresh; st_trace := [] |} with
  | (Some (Returns _), st) => (Some (Returns (st_self st)), st_trace st)
  | (Some (Raises e), st) => (Some (Raises e), st_trace st)
  | (None, st) => (None, st_trace st)
  end.

(** [get_awsclient] *)
Definition get_awsclient (env : Env) (service_name : string) (region_name : pyval)
    (account_id : string) (kw : InitKwargs) :=
  new_AWSClient env service_name
    (if eq_str region_name "" then VNone else region_name) account_id kw.

(** ** [AWSClient.call] *)

(** [self._client] *)
Definition self_client : M Client :=
  self ← get_self;
  match _client self with
  | Some c => ret c
  | None => raise (AttributeError "_client")
  end.

(** [PageIterator.build_full_result()]: the pages are requested in order;
    the first request that raises ends the iteration with that exception,
    otherwise the pages are aggregated. *)
Fixpoint fetch_pages (reqs : list (outcome pyval)) (i : nat) : M (list pyval) :=
  match reqs with
  | [] => ret []
  | r :: reqs' =>
      emit (EvPageRequest i);;
      page ← lift r;
      pages ← fetch_pages reqs' (S i);
      ret (page :: pages)
  end.

Definition build_full_result (results : PageIterator) : M pyval :=
  pages ← fetch_pages (page_requests results) 0;
  ret (aggregate results pages).

(** [if query:] on the argument, a [str] or [None]. *)
Definition query_given (query : option string) : bool :=
  match query with
  | Some q => negb (String.eqb q "")
  | None => false
  end.

(** [if query: query = jmespath.compile(query)].  The rebound variable is
    [Some] compiled expression, or [None] when the argument was falsy. *)
Definition compile_query (env : Env) (query : option string)
    : outcome (option ParsedResult) :=
  match query with
  | Some q =>
      if negb (String.eqb q "") then
        obind (jmespath_compile env q) (λ p, Returns (Some p))
      else Returns None
  | None => Returns None
  end.

(** The [while not done] loop.  [attempt] counts the invocations of [op]
    made so far; [done] and [data] are the loop's variables. *)
Fixpoint retry_loop (fuel : nat) (op_name : string) (op : Operation)
    (kw : kwargs) (attempt : nat) (done : bool) (data : pyval) : M pyval :=
  if done then ret data
  else
    match fuel with
    | O => out_of_fuel
    | S fuel' =>
        emit (EvInvoke op_name kw attempt);;
        match op kw attempt with
        | Returns d =>
            retry_loop fuel' op_name op kw (S attempt) true d
        | Raises (ClientError e) =>
            emit EvLogDebug;;
            if str_in "Throttling" e then
              emit (EvSleep 1);;
              retry_loop fuel' op_name op kw (S attempt) done data
            else if str_in "AccessDenied" e then
              retry_loop fuel' op_name op kw (S attempt) true data
            else if str_in "NoSuchTagSet" e then
              retry_loop fuel' op_name op kw (S attempt) true data
            else if str_in "Topic does not exist" e then
              retry_loop fuel' op_name op kw (S attempt) true data
            else
              retry_loop fuel' op_name op kw (S attempt) done data
        | Raises (OtherException _ _) =>
            retry_loop fuel' op_name op kw (S attempt) true data
        | Raises (BaseOnly cls) =>
            raise (BaseOnly cls)
        end
    end.

Definition paginated_path (op_name : string) (kw : kwargs) : M pyval :=
  c ← self_client;
  paginator ← (emit (EvGetPaginator op_name);; lift (get_paginator c op_name));
  results ← (emit (EvPaginate kw);; lift (paginate paginator kw));
  build_full_result results.

Definition non_paginated_path (fuel : nat) (op_name : string) (kw : kwargs)
    : M pyval :=
  c ← self_client;
  op ← lift (getattr c op_name);
  retry_loop fuel op_name op kw 0 false (VDict []).

(** [if query: data = query.search(data)] *)
Definition apply_query (query : option ParsedResult) (data : pyval)
    : outcome pyval :=
  match query with
  | Some p => search p data
  | None => Returns data
  end.

Definition call (env : Env) (fuel : nat) (op_name : string)
    (query : option string) (kw : kwargs) : M pyval :=
  emit EvLogDebug;;
  query' ← lift (compile_query env query);
  c ← self_client;
  pageable ← lift (can_paginate c op_name);
  data ←
    (if (pageable : bool) then paginated_path op_name kw
     else non_paginated_path fuel op_name kw);
  lift (apply_query query' data).

(** ** Observations on traces *)

(** The ways a session can be authenticated.  The first three are the
    branches of [_create_client]; [Ambient] is a session opened without
    any credential argument. *)
Inductive auth_mode :=
| Explicit (creds : pyval)
| NamedProfile (profile_name : pyval)
| AssumedRole (RoleArn : pyval) (ExternalId : option pyval)
| Ambient.

(** The authentication mode an interaction commits to.  The session opened
    from the temporary keys of an assumed role belongs to that role's mode
    and is not a mode of its own. *)
Definition mode_of_event (ev : event) : option auth_mode :=
  match ev with
  | EvSession (SessKwargs kw) => Some (Explicit (VDict kw))
  | EvSession (SessProfile p) => Some (NamedProfile p)
  | EvSession SessDefault => Some Ambient
  | EvAssumeRole arn _ ext => Some (AssumedRole arn ext)
  | _ => None
  end.

Fixpoint selected_modes (tr : list event) : list auth_mode :=
  match tr with
  | [] => []
  | ev :: tr' =>
      match mode_of_event ev with
      | Some m => m :: selected_modes tr'
      | None => selected_modes tr'
      end
  end.

(** The durations of the [time.sleep] calls of a trace, in order. *)
Fixpoint sleeps (tr : list event) : list Z :=
  match tr with
  | [] => []
  | EvSleep s :: tr' => s :: sleeps tr'
  | _ :: tr' => sleeps tr'
  end.

(** The attempts of a trace: the indices of the direct invocations. *)
Fixpoint invocations (tr : list event) : list nat :=
  match tr with
  | [] => []
  | EvInvoke _ _ n :: tr' => n :: invocations tr'
  | _ :: tr' => invocations tr'
  end.

(** One throttled attempt: the invocation, the debug log of the handler,
    the one-second sleep. *)
Definition throttled_attempt (op_name : string) (kw : kwargs) (i : nat)
    : list event :=
  [EvInvoke op_name kw i; EvLogDebug; EvSleep 1].

Fixpoint throttled_attempts (op_name : string) (kw : kwargs) (n k : nat)
    : list event :=
  match k with
  | O => []
  | S k' => throttled_attempt op_name kw n ++ throttled_attempts op_name kw (S n) k'
  end.

(** The first [k] invocations of [op], counted from attempt [n], raise a
    [ClientError] whose message contains ['Throttling']. *)
Definition throttled (op : Operation) (kw : kwargs) (n k : nat) : Prop :=
  ∀ i, i < k →
    ∃ msg, op kw (n + i) = Raises (ClientError msg)
           ∧ str_in "Throttling" msg = true.

(** The three substrings [call] treats as terminal. *)
Definition ignorable (msg : string) : bool :=
  str_in "AccessDenied" msg || str_in "NoSuchTagSet" msg
  || str_in "Topic does not exist" msg.

(** ** The credential precedence in the specification's words

    Explicit credentials passed to the constructor, else explicit
    credentials in the account configuration, else the named profile, else
    role assumption with the configured [role_arn] (and [external_id] when
    present), else ambient credentials. *)
Definition spec_precedence (arg_creds : pyval) (acct : Account) : auth_mode :=
  if negb (is_None arg_creds) then Explicit arg_creds
  else if negb (is_None (dict_get acct "credentials")) then
    Explicit (dict_get acct "credentials")
  else
    match acct !! "profile" with
    | Some p => NamedProfile p
    | None =>
        match acct !! "role_arn" with
        | Some r => AssumedRole r (acct !! "external_id")
        | None => Ambient
        end
    end.

(** The same precedence without the ambient mode: with nothing configured
    the role is assumed all the same, with [RoleArn=None]. *)
Definition without_ambient (m : auth_mode) : auth_mode :=
  match m with
  | Ambient => AssumedRole VNone None
  | _ => m
  end.

(** A value is usable as a setting when [if v:] holds for it. *)
Definition setting_ok (o : option pyval) : Prop :=
  match o with
  | Some v => truthy v = true
  | None => True
  end.

(** Credentials that are usable or absent: [None], or a dict that is not
    empty. *)
Definition usable_credentials (v : pyval) : Prop :=
  match v with
  | VNone => True
  | VDict (_ :: _) => True
  | _ => False
  end.

(** The inputs on which "present" and "usable" coincide: credentials are
    [None] or a non-empty dict, and a configured [profile] or
    [external_id] is truthy. *)
Definition plain_inputs (arg_creds : pyval) (acct : Account) : Prop :=
  usable_credentials arg_creds
  ∧ usable_credentials (dict_get acct "credentials")
  ∧ setting_ok (acct !! "profile")
  ∧ setting_ok (acct !! "external_id").

(** ** A small concrete environment

    Stand-ins for the collaborators, used to run the wrapper on concrete
    inputs: a jmespath that knows only field selection, a client driven by
    a script of outcomes, a paginator whose aggregate concatenates the
    pages, and an STS endpoint that insists on a string [RoleArn]. *)
Module Demo.

Definition field_query (q : string) : ParsedResult :=
  {| expression := q;
     search := λ data,
       match data with
       | VDict d => Returns (default VNone (assoc q d))
       | _ => Returns VNone
       end |}.

Definition compile (q : string) : outcome ParsedResult :=
  if String.eqb q "[" then Raises (OtherException "ParseError" q)
  else Returns (field_query q).

Definition scripted (script : list (outcome pyval)) : Operation :=
  λ _ n, nth n script (Raises (ClientError "Throttling: script exhausted")).

Definition pages_of (pages : list (outcome pyval)) : Paginator :=
  {| paginate := λ _,
       Returns {| page_requests := pages; aggregate := VList |} |}.

(** Operations named in [pageable] paginate over [pages]; every other
    name is a method following [script]. *)
Definition service (pageable : list string) (pages script : list (outcome pyval))
    : Client :=
  {| can_paginate := λ op, Returns (existsb (String.eqb op) pageable);
     get_paginator := λ _, Returns (pages_of pages);
     getattr := λ _, Returns (scripted script) |}.

Definition temporary_credentials : pyval :=
  VDict [("Credentials",
          VDict [("AccessKeyId", VStr "ASIA");
                 ("SecretAccessKey", VStr "secret");
                 ("SessionToken", VStr "token")])].

Definition sts : StsClient :=
  {| assume_role := λ arn _ _,
       match arn with
       | VStr _ => Returns temporary_credentials
       | _ => Raises (OtherException "ParamValidationError" "RoleArn")
       end |}.

Definition nothing : Client := service [] [] [].

Definition env (cfg : SkewConfig) : Env :=
  {| boto3_Session := λ _, Returns {| client := λ _ _ _, Returns nothing |};
     boto3_client := λ _, Returns sts;
     jmespath_compile := compile;
     get_config := Returns cfg |}.

Definition no_kwargs : InitKwargs :=
  {| kw_config := None; kw_aws_creds := VNone; kw_placebo := None;
     kw_placebo_dir := VNone; kw_placebo_mode := None |}.

Definition one_account (acct : Account) : SkewConfig :=
  {[ "accounts" := {[ "123456789012" := acct ]} ]}.

(** A wrapper around client [c], as the constructor leaves it. *)
Definition wrapper (c : Client) : AWSClient :=
  {| _config := one_account ∅;
     _service_name := "ec2";
     _region_name := VStr "us-east-1";
     _account_id := "123456789012";
     _has_credentials := false;
     aws_creds := VNone;
     _profile := VStr "dev";
     _external_id := VNone;
     _role_arn := VNone;
     placebo := None;
     placebo_dir := VNone;
     placebo_mode := VStr "record";
     _client := Some c |}.

Definition start (c : Client) : State :=
  {| st_self := wrapper c; st_trace := [] |}.

Definition throttling : outcome pyval :=
  Raises (ClientError "An error occurred (Throttling) when calling the DescribeKey operation: Rate exceeded").

Definition answer : pyval := VDict [("KeyId", VStr "k-1")].

End Demo.

(** ** Auxiliary definitions for the statements *)

(** The state reached from [st] once [evs] have been recorded: the object
    is the same, the trace is longer. *)
Definition after (st : State) (evs : list event) : State :=
  {| st_self := st_self st; st_trace := st_trace st ++ evs |}.

(** The end of [call] applied to the run of one of its paths: the query is
    applied to returned data; an exception or a loop still running is left
    as it is. *)
Definition finish (query' : option ParsedResult)
    (r : option (outcome pyval) * State) : option (outcome pyval) * State :=
  match r with
  | (Some (Returns data), st') => (Some (apply_query query' data), st')
  | other => other
  end.

(** A computation frames the object when, however it ends, the object in
    the final state is the one it started with. *)
Definition frames_self {A} (m : M A) : Prop :=
  ∀ st, st_self (snd (m st)) = st_self st.

(** The branch of [_create_client] an object takes. *)
Definition resolved_mode (self : AWSClient) : auth_mode :=
  if truthy (aws_creds self) then Explicit (aws_creds self)
  else if truthy (profile self) then NamedProfile (profile self)
  else AssumedRole (role_arn self)
         (if truthy (external_id self) then Some (external_id self) else None).

(** The object [__init__] has assigned when it calls [_create_client], for
    an account whose settings are [acct]. *)
Definition attributes_of (cfg : SkewConfig) (service_name : string)
    (region_name : pyval) (account_id : string) (kw : InitKwargs)
    (acct : Account) : AWSClient :=
  let creds :=
    if is_None (kw_aws_creds kw) then dict_get acct "credentials"
    else kw_aws_creds kw in
  {| _config := cfg;
     _service_name := service_name;
     _region_name := region_name;
     _account_id := account_id;
     _has_credentials := false;
     aws_creds := creds;
     _profile := if is_None creds then dict_get acct "profile" else VNone;
     _external_id :=
       if is_None creds then
         match acct !! "profile", acct !! "role_arn" with
         | None, Some _ => dict_get acct "external_id"
         | _, _ => VNone
         end
       else VNone;
     _role_arn :=
       if is_None creds then
         match acct !! "profile" with
         | None => dict_get acct "role_arn"
         | Some _ => VNone
         end
       else VNone;
     placebo := kw_placebo kw;
     placebo_dir := kw_placebo_dir kw;
     placebo_mode := match kw_placebo_mode kw with
                     | Some m => m
                     | None => VStr "record"
                     end;
     _client := None |}.

(** An attempt the handler neither ends on nor lets through: a
    [ClientError] that is throttled, or that matches none of the four
    substrings. *)
Definition retried (o : outcome pyval) : Prop :=
  ∃ msg, o = Raises (ClientError msg)
         ∧ (str_in "Throttling" msg = true ∨ ignorable msg = false).

(** The [w] low decimal digits of [n], most significant first. *)
Fixpoint fixed (w : nat) (n : N) : string :=
  match w with
  | O => ""
  | S w' => fixed w' (n / 10) +:+ String (digit n) ""
  end.

(** The field ranges [datetime.datetime] enforces on its instances; the
    UTC offset is strictly within a day. *)
Definition valid_datetime (dt : datetime) : Prop :=
  (1 ≤ year dt ≤ 9999)%N ∧ (1 ≤ month dt ≤ 12)%N ∧ (1 ≤ day dt ≤ 31)%N
  ∧ (hour dt < 24)%N ∧ (minute dt < 60)%N ∧ (second dt < 60)%N
  ∧ (microsecond dt < 1000000)%N
  ∧ match utcoffset dt with
    | Some o => (-86400000000 < o < 86400000000)%Z
    | None => True
    end.

(** The ISO-8601 extended layout, field by field, every field at its
    fixed width: [YYYY-MM-DDTHH:MM:SS[.ffffff][+HH:MM[:SS[.ffffff]]]]. *)
Definition iso8601_offset (off : option Z) : string :=
  match off with
  | None => ""
  | Some o =>
      let a := Z.to_N (Z.abs o) in
      let ss := ((a mod 3600000000) mod 60000000)%N in
      (if (o <? 0)%Z then "-" else "+")
      +:+ fixed 2 (a / 3600000000) +:+ ":"
      +:+ fixed 2 ((a mod 3600000000) / 60000000)
      +:+ (if (ss =? 0)%N then ""
           else ":" +:+ fixed 2 (ss / 1000000)
                +:+ (if (ss mod 1000000 =? 0)%N then ""
                     else "." +:+ fixed 6 (ss mod 1000000)))
  end.

Definition iso8601 (dt : datetime) : string :=
  fixed 4 (year dt) +:+ "-" +:+ fixed 2 (month dt) +:+ "-" +:+ fixed 2 (day dt)
  +:+ "T" +:+ fixed 2 (hour dt) +:+ ":" +:+ fixed 2 (minute dt)
  +:+ ":" +:+ fixed 2 (second dt)
  +:+ (if (microsecond dt =? 0)%N then "" else "." +:+ fixed 6 (microsecond dt))
  +:+ iso8601_offset (utcoffset dt).

Definition is_digit (c : Ascii.ascii) : bool :=
  (48 <=? Ascii.N_of_ascii c)%N && (Ascii.N_of_ascii c <=? 57)%N.

Fixpoint all_digits (s : string) : bool :=
  match s with
  | EmptyString => true
  | String c s' => is_digit c && all_digits s'
  end.

(** ** Definitions for the further properties *)

(** An attempt that ended in the throttling branch of the handler. *)
Definition is_throttled (o : outcome pyval) : bool :=
  match o with
  | Raises (ClientError msg) => str_in "Throttling" msg
  | _ => false
  end.

(** How many of the [k] attempts from attempt [n] on were throttled. *)
Fixpoint throttled_count (op : Operation) (kw : kwargs) (n k : nat) : nat :=
  match k with
  | O => O
  | S k' =>
      (if is_throttled (op kw n) then 1 else 0)
      + throttled_count op kw (S n) k'
  end.

(** The three steps of [_create_client], named: opening the session,
    attaching the recording harness, creating the client. *)
Definition open_session (env : Env) (self : AWSClient) : M Session :=
  if truthy (aws_creds self) then
    kw ← lift (unpack (aws_creds self));
    new_session env (SessKwargs kw)
  else if truthy (profile self) then
    new_session env (SessProfile (profile self))
  else
    sts ← (emit EvStsClient;; lift (boto3_client env "sts"));
    assumed_role ←
      (if truthy (external_id self) then
         sts_assume_role sts (role_arn self) "skew" (Some (external_id self))
       else
         sts_assume_role sts (role_arn self) "skew" None);
    creds1 ← lift (getitem assumed_role "Credentials");
    access_key ← lift (getitem creds1 "AccessKeyId");
    creds2 ← lift (getitem assumed_role "Credentials");
    secret_key ← lift (getitem creds2 "SecretAccessKey");
    creds3 ← lift (getitem assumed_role "Credentials");
    token ← lift (getitem creds3 "SessionToken");
    new_session env (SessKeys access_key secret_key token).

Definition attach_placebo (self : AWSClient) (session : Session) : M unit :=
  match placebo self with
  | Some plc =>
      if truthy (placebo_dir self) then
        pill ← (emit (EvPlaceboAttach (placebo_dir self));;
                lift (attach plc session (placebo_dir self)));
        if eq_str (placebo_mode self) "record" then
          emit EvPlaceboRecord;; lift (record pill)
        else if eq_str (placebo_mode self) "playback" then
          emit EvPlaceboPlayback;; lift (playback pill)
        else ret tt
      else ret tt
  | None => ret tt
  end.

(** The region [session.client] is given: the object's, or [None] when
    that is falsy. *)
Definition client_region (self : AWSClient) : pyval :=
  if truthy (region_name self) then region_name self else VNone.

Definition session_client (self : AWSClient) (session : Session) : M Client :=
  emit (EvClient (service_name self) client_config (client_region self));;
  lift (client session (service_name self) client_config (client_region self)).

(** The interactions that open a session, and those with the recording
    harness. *)
Definition session_event (ev : event) : bool :=
  match ev with
  | EvStsClient | EvAssumeRole _ _ _ | EvSession _ => true
  | _ => false
  end.

Definition placebo_event (ev : event) : bool :=
  match ev with
  | EvPlaceboAttach _ | EvPlaceboRecord | EvPlaceboPlayback => true
  | _ => false
  end.

(** The harness interactions of a construction that goes through: none
    unless both a harness and a directory were given; otherwise the
    attachment, then recording or playback according to the mode. *)
Definition placebo_events (self : AWSClient) : list event :=
  match placebo self with
  | Some _ =>
      if truthy (placebo_dir self) then
        EvPlaceboAttach (placebo_dir self)
        :: (if eq_str (placebo_mode self) "record" then [EvPlaceboRecord]
            else if eq_str (placebo_mode self) "playback" then [EvPlaceboPlayback]
            else [])
      else []
  | None => []
  end.

(** The interactions that precede the opening of the session: none when
    credentials or a profile are used, the STS client and the role
    assumption otherwise. *)
Definition opening_events (self : AWSClient) : list event :=
  if truthy (aws_creds self) then []
  else if truthy (profile self) then []
  else [EvStsClient;
        EvAssumeRole (role_arn self) "skew"
          (if truthy (external_id self) then Some (external_id self)
           else None)].

(** The arguments the session of an object is opened with: its
    credentials unpacked, else its profile, else three temporary keys. *)
Definition opens_with (self : AWSClient) (args : session_args) : Prop :=
  match args with
  | SessKwargs kw =>
      truthy (aws_creds self) = true ∧ aws_creds self = VDict kw
  | SessProfile p =>
      truthy (aws_creds self) = false ∧ truthy (profile self) = true
      ∧ p = profile self
  | SessKeys _ _ _ =>
      truthy (aws_creds self) = false ∧ truthy (profile self) = false
  | SessDefault => False
  end.

(** The outcome of the constructor once [__init__] has assigned the
    attributes [self0]: what [_create_client] does from there, and the
    assignment of its result. *)
Definition built_from (env : Env) (self0 : AWSClient)
    : option (outcome AWSClient) * list event :=
  match _create_client env {| st_self := self0; st_trace := [] |} with
  | (Some (Returns c), st) =>
      (Some (Returns (set__client (Some c) (st_self st))), st_trace st)
  | (Some (Raises e), st) => (Some (Raises e), st_trace st)
  | (None, st) => (None, st_trace st)
  end.

(** [assumed_role['Credentials'][...]], the three keys the session is
    opened with. *)
Definition temporary_keys (assumed_role : pyval) : outcome (pyval * pyval * pyval) :=
  obind (getitem assumed_role "Credentials") (λ creds,
  obind (getitem creds "AccessKeyId") (λ access_key,
  obind (getitem creds "SecretAccessKey") (λ secret_key,
  obind (getitem creds "SessionToken") (λ token,
  Returns (access_key, secret_key, token))))).

(** A recording harness for the concrete environment, and keyword
    arguments that ask for playback from a directory. *)
Module Replay.

Definition pill : Pill := {| record := Returns tt; playback := Returns tt |}.

Definition harness : Placebo := {| attach := λ _ _, Returns pill |}.

Definition kwargs_playback : InitKwargs :=
  {| kw_config := None; kw_aws_creds := VNone; kw_placebo := Some harness;
     kw_placebo_dir := VStr "/tmp/pills"; kw_placebo_mode := Some (VStr "playback") |}.

Definition kwargs_creds (creds : pyval) : InitKwargs :=
  {| kw_config := None; kw_aws_creds := creds; kw_placebo := None;
     kw_placebo_dir := VNone; kw_placebo_mode := None |}.

Definition dev : Account := {[ "profile" := VStr "dev" ]}.

End Replay.

(** * Properties *)

(** ** Running the monad *)

Lemma after_nil st : after st [] = st.
Proof. destruct st; unfold after; simpl. by rewrite app_nil_r. Qed.

Lemma after_after st evs1 evs2 :
  after (after st evs1) evs2 = after st (evs1 ++ evs2).
Proof. unfold after; simpl. by rewrite app_assoc. Qed.

Lemma after_self st evs : st_self (after st evs) = st_self st.
Proof. reflexivity. Qed.

Lemma after_trace st evs : st_trace (after st evs) = st_trace st ++ evs.
Proof. reflexivity. Qed.

Lemma bind_emit {B} ev (k : M B) st : (emit ev;; k) st = k (after st [ev]).
Proof. reflexivity. Qed.

Lemma bind_ret {A B} (a : A) (k : A → M B) st : (x ← ret a; k x) st = k a st.
Proof. reflexivity. Qed.

Lemma bind_lift_returns {A B} (o : outcome A) a (k : A → M B) st :
  o = Returns a → (x ← lift o; k x) st = k a st.
Proof. by intros ->. Qed.

Lemma bind_lift_raises {A B} (o : outcome A) e (k : A → M B) st :
  o = Raises e → (x ← lift o; k x) st = (Some (Raises e), st).
Proof. by intros ->. Qed.

Lemma bind_get_self {B} (k : AWSClient → M B) st :
  (self ← get_self; k self) st = k (st_self st) st.
Proof. reflexivity. Qed.

Lemma bind_assoc {A B C} (m : M A) (f : A → M B) (g : B → M C) st :
  (y ← (x ← m; f x); g y) st = (x ← m; y ← f x; g y) st.
Proof.
  unfold mbind, M_bind, bind.
  destruct (m st) as [[[a|e]|] st']; reflexivity.
Qed.

Lemma bind_ret_r {A} (m : M A) st : (x ← m; ret x) st = m st.
Proof.
  unfold mbind, M_bind, bind.
  destruct (m st) as [[[a|e]|] st']; reflexivity.
Qed.

Lemma self_client_run st c :
  _client (st_self st) = Some c → self_client st = (Some (Returns c), st).
Proof.
  intros Hc. unfold self_client. rewrite bind_get_self. by rewrite Hc.
Qed.

(** ** The substring test *)

Lemma startswith_app p s : startswith p (p +:+ s) = true.
Proof.
  induction p as [|a p IH]; simpl; [done|].
  by rewrite Ascii.eqb_refl, IH.
Qed.

Lemma startswith_inv p s :
  startswith p s = true → ∃ post, s = p +:+ post.
Proof.
  revert s; induction p as [|a p IH]; intros s H; simpl in *.
  - by exists s.
  - destruct s as [|b s]; [done|].
    apply andb_true_iff in H as [Hab Hps].
    apply Ascii.eqb_eq in Hab as ->.
    destruct (IH _ Hps) as [post ->]. by exists post.
Qed.

Lemma str_in_startswith needle hay :
  startswith needle hay = true → str_in needle hay = true.
Proof. intros H. destruct hay; simpl; by rewrite H. Qed.

(** [str_in] is Python's substring test: it holds exactly when the
    haystack splits around the needle. *)
Lemma str_in_spec needle hay :
  str_in needle hay = true ↔ ∃ pre post, hay = pre +:+ needle +:+ post.
Proof.
  split.
  - induction hay as [|b hay IH]; simpl; intros H.
    + apply orb_true_iff in H as [H|H]; [|done].
      destruct (startswith_inv _ _ H) as [post ->]. by exists "", post.
    + apply orb_true_iff in H as [H|H].
      * destruct (startswith_inv _ _ H) as [post ->]. by exists "", post.
      * destruct (IH H) as (pre & post & ->). by exists (String b pre), post.
  - intros (pre & post & ->).
    induction pre as [|b pre IH].
    + apply str_in_startswith. exact (startswith_app needle post).
    + simpl. by rewrite IH, orb_true_r.
Qed.

(** ** One iteration of the retry loop *)

Section RetryLoop.
Context (op_name : string) (op : Operation) (kw : kwargs).

Lemma retry_loop_done fuel n data st :
  retry_loop fuel op_name op kw n true data st = (Some (Returns data), st).
Proof. by destruct fuel. Qed.

Lemma retry_loop_exhausted n data st :
  retry_loop 0 op_name op kw n false data st = (None, st).
Proof. reflexivity. Qed.

Lemma retry_loop_success fuel n data st d :
  op kw n = Returns d →
  retry_loop (S fuel) op_name op kw n false data st
  = (Some (Returns d), after st [EvInvoke op_name kw n]).
Proof.
  intros Hop. simpl. rewrite bind_emit, Hop. apply retry_loop_done.
Qed.

Lemma retry_loop_throttle fuel n data st msg :
  op kw n = Raises (ClientError msg) →
  str_in "Throttling" msg = true →
  retry_loop (S fuel) op_name op kw n false data st
  = retry_loop fuel op_name op kw (S n) false data
      (after st (throttled_attempt op_name kw n)).
Proof.
  intros Hop Hthr. cbn [retry_loop]. rewrite bind_emit, Hop, bind_emit, Hthr.
  rewrite bind_emit. by rewrite !after_after.
Qed.


Lemma retry_loop_unmatched fuel n data st msg :
  op kw n = Raises (ClientError msg) →
  str_in "Throttling" msg = false →
  ignorable msg = false →
  retry_loop (S fuel) op_name op kw n false data st
  = retry_loop fuel op_name op kw (S n) false data
      (after st [EvInvoke op_name kw n; EvLogDebug]).
Proof.
  intros Hop Hthr Hign. cbn [retry_loop].
  rewrite bind_emit, Hop, bind_emit, Hthr, after_after.
  unfold ignorable in Hign.
  apply orb_false_iff in Hign as [Hign Htopic].
  apply orb_false_iff in Hign as [Hdenied Htag].
  by rewrite Hdenied, Htag, Htopic.
Qed.


Lemma retry_loop_base_exception fuel n data st cls :
  op kw n = Raises (BaseOnly cls) →
  retry_loop (S fuel) op_name op kw n false data st
  = (Some (Raises (BaseOnly cls)), after st [EvInvoke op_name kw n]).
Proof.
  intros Hop. cbn [retry_loop]. by rewrite bind_emit, Hop.
Qed.

Lemma throttled_tail n k :
  throttled op kw n (S k) → throttled op kw (S n) k.
Proof.
  intros H i Hi. destruct (H (S i)) as (msg & Hop & Hthr); [lia|].
  exists msg. split; [|done]. by replace (S n + i) with (n + S i) by lia.
Qed.

(** [k] throttled attempts in a row cost [k] rounds of fuel and leave the
    loop where it was, [k] attempts later. *)
Lemma retry_loop_skip_throttled k : ∀ fuel n data st,
  throttled op kw n k →
  retry_loop (k + fuel) op_name op kw n false data st
  = retry_loop fuel op_name op kw (n + k) false data
      (after st (throttled_attempts op_name kw n k)).
Proof.
  induction k as [|k IH]; intros fuel n data st Hthr.
  - simpl. by rewrite after_nil, Nat.add_0_r.
  - destruct (Hthr 0) as (msg & Hop & Hmsg); [lia|].
    rewrite Nat.add_0_r in Hop.
    change (S k + fuel) with (S (k + fuel)).
    rewrite (retry_loop_throttle _ _ _ _ _ Hop Hmsg).
    rewrite IH by by apply throttled_tail.
    rewrite after_after. simpl throttled_attempts.
    by replace (S n + k) with (n + S k) by lia.
Qed.

Lemma sleeps_throttled_attempts n k :
  sleeps (throttled_attempts op_name kw n k) = repeat 1%Z k.
Proof.
  revert n; induction k as [|k IH]; intros n; simpl; [done|].
  by rewrite IH.
Qed.

Lemma invocations_throttled_attempts n k :
  invocations (throttled_attempts op_name kw n k) = seq n k.
Proof.
  revert n; induction k as [|k IH]; intros n; simpl; [done|].
  by rewrite IH.
Qed.

End RetryLoop.

Lemma sleeps_app tr1 tr2 : sleeps (tr1 ++ tr2) = sleeps tr1 ++ sleeps tr2.
Proof.
  induction tr1 as [|ev tr1 IH]; simpl; [done|].
  destruct ev; simpl; by rewrite ?IH.
Qed.

Lemma invocations_app tr1 tr2 :
  invocations (tr1 ++ tr2) = invocations tr1 ++ invocations tr2.
Proof.
  induction tr1 as [|ev tr1 IH]; simpl; [done|].
  destruct ev; simpl; by rewrite ?IH.
Qed.

(** The loop only adds to the trace, and an iteration that takes place
    starts by invoking the operation. *)
Lemma retry_loop_extends op_name op kw fuel : ∀ n done data st,
  ∃ evs, snd (retry_loop fuel op_name op kw n done data st) = after st evs.
Proof.
  induction fuel as [|fuel IH]; intros n done data st.
  - exists []. rewrite after_nil. by destruct done.
  - destruct done.
    { exists []. by rewrite after_nil, retry_loop_done. }
    assert (Hnext : ∀ pre b data',
      ∃ evs, snd (retry_loop fuel op_name op kw (S n) b data' (after st pre))
             = after st evs).
    { intros pre b data'.
      destruct (IH (S n) b data' (after st pre)) as (evs & ->).
      exists (pre ++ evs). by rewrite after_after. }
    cbn [retry_loop]. rewrite bind_emit.
    destruct (op kw n) as [d|[msg|cls msg|cls]]; [apply Hnext| |apply Hnext|].
    + rewrite bind_emit, after_after.
      destruct (str_in "Throttling" msg).
      { rewrite bind_emit, after_after. apply Hnext. }
      repeat case_match; apply Hnext.
    + by exists [EvInvoke op_name kw n].
Qed.

Lemma retry_loop_invokes_first op_name op kw fuel n data st :
  ∃ rest,
    snd (retry_loop (S fuel) op_name op kw n false data st)
    = after st (EvInvoke op_name kw n :: rest).
Proof.
  assert (Hnext : ∀ pre b data',
    ∃ rest, snd (retry_loop fuel op_name op kw (S n) b data'
                   (after st (EvInvoke op_name kw n :: pre)))
            = after st (EvInvoke op_name kw n :: rest)).
  { intros pre b data'.
    destruct (retry_loop_extends op_name op kw fuel (S n) b data'
                (after st (EvInvoke op_name kw n :: pre))) as (evs & ->).
    exists (pre ++ evs). by rewrite after_after. }
  cbn [retry_loop]. rewrite bind_emit.
  destruct (op kw n) as [d|[msg|cls msg|cls]];
    [apply (Hnext [])| |apply (Hnext [])|].
  - rewrite bind_emit, after_after.
    destruct (str_in "Throttling" msg).
    { rewrite bind_emit, after_after. apply (Hnext [EvLogDebug; EvSleep 1]). }
    repeat case_match; apply (Hnext [EvLogDebug]).
  - by exists [].
Qed.

(** ** The two paths of [call] *)

Lemma call_non_paginated env fuel op_name query kw st c op query' :
  _client (st_self st) = Some c →
  can_paginate c op_name = Returns false →
  getattr c op_name = Returns op →
  compile_query env query = Returns query' →
  call env fuel op_name query kw st
  = finish query'
      (retry_loop fuel op_name op kw 0 false (VDict []) (after st [EvLogDebug])).
Proof.
  intros Hc Hpag Hop Hq. unfold call.
  rewrite bind_emit, (bind_lift_returns _ _ _ _ Hq).
  unfold mbind, M_bind, bind.
  rewrite (self_client_run (after st [EvLogDebug]) c Hc), Hpag.
  cbn [lift].
  unfold non_paginated_path, mbind, M_bind, bind.
  rewrite (self_client_run (after st [EvLogDebug]) c Hc).
  unfold lift at 1. rewrite Hop.
  destruct (retry_loop _ _ _ _ _ _ _ _) as [[[d|e]|] st']; reflexivity.
Qed.

Lemma fetch_pages_all pages : ∀ i st,
  fetch_pages (map Returns pages) i st
  = (Some (Returns pages),
     after st (map EvPageRequest (seq i (length pages)))).
Proof.
  induction pages as [|p pages IH]; intros i st; simpl.
  - by rewrite after_nil.
  - rewrite bind_emit. unfold mbind, M_bind, bind. simpl.
    rewrite IH, after_after. reflexivity.
Qed.

Lemma fetch_pages_fail pages e rest : ∀ i st,
  fetch_pages (map Returns pages ++ Raises e :: rest) i st
  = (Some (Raises e),
     after st (map EvPageRequest (seq i (S (length pages))))).
Proof.
  induction pages as [|p pages IH]; intros i st.
  - reflexivity.
  - cbn [map app fetch_pages]. rewrite bind_emit.
    unfold mbind, M_bind, bind. cbn [lift].
    rewrite IH, after_after. reflexivity.
Qed.

(** Every sequence of page outcomes is all pages, or pages up to a first
    failure. *)
Lemma page_requests_cases (reqs : list (outcome pyval)) :
  (∃ pages, reqs = map Returns pages)
  ∨ (∃ pages e rest, reqs = map Returns pages ++ Raises e :: rest).
Proof.
  induction reqs as [|[p|e] reqs IH].
  - left. by exists [].
  - destruct IH as [[pages ->]|(pages & e & rest & ->)].
    + left. by exists (p :: pages).
    + right. by exists (p :: pages), e, rest.
  - right. by exists [], e, reqs.
Qed.

Lemma call_paginated env fuel op_name query kw st c query' :
  _client (st_self st) = Some c →
  can_paginate c op_name = Returns true →
  compile_query env query = Returns query' →
  call env fuel op_name query kw st
  = finish query' (paginated_path op_name kw (after st [EvLogDebug])).
Proof.
  intros Hc Hpag Hq. unfold call.
  rewrite bind_emit, (bind_lift_returns _ _ _ _ Hq).
  unfold mbind, M_bind, bind.
  rewrite (self_client_run (after st [EvLogDebug]) c Hc), Hpag.
  cbn [lift].
  destruct (paginated_path _ _ _) as [[[d|e]|] st']; reflexivity.
Qed.

Lemma paginated_path_run op_name kw st c :
  _client (st_self st) = Some c →
  paginated_path op_name kw st
  = match get_paginator c op_name with
    | Raises e => (Some (Raises e), after st [EvGetPaginator op_name])
    | Returns paginator =>
        match paginate paginator kw with
        | Raises e =>
            (Some (Raises e), after st [EvGetPaginator op_name; EvPaginate kw])
        | Returns results =>
            build_full_result results
              (after st [EvGetPaginator op_name; EvPaginate kw])
        end
    end.
Proof.
  intros Hc. unfold paginated_path, mbind, M_bind, bind.
  rewrite (self_client_run st c Hc). cbn [emit lift].
  destruct (get_paginator c op_name) as [paginator|e]; [|reflexivity].
  destruct (paginate paginator kw) as [results|e];
    unfold after; simpl; by rewrite <- app_assoc.
Qed.

Lemma compile_query_not_given env query :
  query_given query = false → compile_query env query = Returns None.
Proof.
  destruct query as [q|]; simpl; [|done]. by intros ->.
Qed.

Lemma compile_query_given env q p :
  q ≠ "" → jmespath_compile env q = Returns p →
  compile_query env (Some q) = Returns (Some p).
Proof.
  intros Hq Hp. simpl. rewrite Hp.
  destruct (String.eqb_spec q ""); [done|reflexivity].
Qed.

(** ** The retry policy of the non-paginated path *)

(** C4.  A non-paginated operation whose first [N] invocations raise a
    [ClientError] containing ['Throttling'] and whose next invocation
    succeeds: [call] returns that invocation's result (passed through the
    query when one was compiled, and as it is when there is none), having
    invoked the operation [N + 1] times and slept exactly [N] times, one
    second each, once after every throttled attempt and so before every
    retry. *)
Theorem call_throttled_then_success
    env fuel op_name query kw st c op query' N d :
  _client (st_self st) = Some c →
  can_paginate c op_name = Returns false →
  getattr c op_name = Returns op →
  compile_query env query = Returns query' →
  throttled op kw 0 N →
  op kw N = Returns d →
  N < fuel →
  let evs := EvLogDebug :: throttled_attempts op_name kw 0 N
                           ++ [EvInvoke op_name kw N] in
  call env fuel op_name query kw st = (Some (apply_query query' d), after st evs)
  ∧ (query_given query = false →
     fst (call env fuel op_name query kw st) = Some (Returns d))
  ∧ sleeps evs = repeat 1%Z N
  ∧ invocations evs = seq 0 (S N).
Proof.
  intros Hc Hpag Hop Hq Hthr Hd Hfuel evs.
  assert (Hcall : call env fuel op_name query kw st
                  = (Some (apply_query query' d), after st evs)).
  { rewrite (call_non_paginated _ _ _ _ _ _ _ _ _ Hc Hpag Hop Hq).
    replace fuel with (N + S (fuel - S N)) by lia.
    rewrite retry_loop_skip_throttled by done.
    rewrite (retry_loop_success _ _ _ _ _ _ _ _ Hd).
    unfold finish. by rewrite !after_after. }
  split; [done|]. split; [|split].
  - intros Hnone. rewrite Hcall.
    rewrite (compile_query_not_given env _ Hnone) in Hq.
    by injection Hq as <-.
  - unfold evs. change (EvLogDebug :: ?l) with ([EvLogDebug] ++ l).
    rewrite !sleeps_app, sleeps_throttled_attempts. simpl.
    by rewrite app_nil_r.
  - unfold evs. change (EvLogDebug :: ?l) with ([EvLogDebug] ++ l).
    rewrite !invocations_app, invocations_throttled_attempts, seq_S.
    reflexivity.
Qed.

Lemma call_throttled_then_success_witness :
  let c := Demo.service [] [] [Demo.throttling; Demo.throttling; Returns Demo.answer] in
  let run := call (Demo.env ∅) 3 "describe_key" None [] (Demo.start c) in
  fst run = Some (Returns Demo.answer)
  ∧ sleeps (st_trace (snd run)) = [1; 1]%Z.
Proof.
  intros c run.
  destruct (call_throttled_then_success (Demo.env ∅) 3 "describe_key" None []
              (Demo.start c) c
              (Demo.scripted [Demo.throttling; Demo.throttling; Returns Demo.answer])
              None 2 Demo.answer)
    as (Hcall & _ & _ & _).
  - reflexivity.
  - reflexivity.
  - reflexivity.
  - reflexivity.
  - intros i Hi. destruct i as [|[|i]].
    + eexists. split; reflexivity.
    + eexists. split; reflexivity.
    + lia.
  - reflexivity.
  - lia.
  - unfold run. rewrite Hcall. split; reflexivity.
Defined.

(** C9.  The ['Throttling'] test comes first: while the invocations raise
    a [ClientError] whose message contains ['Throttling'] and also one of
    the three ignorable substrings, each of them is followed by the debug
    log and a sleep of one second, and the operation is invoked again.
    After [N] such errors the loop has not ended (a call allowed [N]
    attempts is still running), attempt [N] takes place, and when it
    succeeds its data is what [call] returns, not the empty result. *)
Theorem call_throttling_takes_precedence
    env fuel op_name query kw st c op query' N :
  _client (st_self st) = Some c →
  can_paginate c op_name = Returns false →
  getattr c op_name = Returns op →
  compile_query env query = Returns query' →
  (∀ i, (i < N)%nat →
     ∃ msg, op kw i = Raises (ClientError msg)
            ∧ str_in "Throttling" msg = true ∧ ignorable msg = true) →
  (N < fuel)%nat →
  (∃ rest,
     snd (call env fuel op_name query kw st)
     = after st (EvLogDebug :: throttled_attempts op_name kw 0 N
                   ++ EvInvoke op_name kw N :: rest))
  ∧ (∀ d, op kw N = Returns d →
       call env fuel op_name query kw st
       = (Some (apply_query query' d),
          after st (EvLogDebug :: throttled_attempts op_name kw 0 N
                      ++ [EvInvoke op_name kw N])))
  ∧ fst (call env N op_name query kw st) = None.
Proof.
  intros Hc Hpag Hop Hq Hboth Hfuel.
  assert (Hthr : throttled op kw 0 N).
  { intros i Hi. destruct (Hboth i Hi) as (msg & Hraise & Hmsg & _).
    by exists msg. }
  split; [|split].
  - rewrite (call_non_paginated _ _ _ _ _ _ _ _ _ Hc Hpag Hop Hq).
    replace fuel with (N + S (fuel - S N))%nat by lia.
    rewrite retry_loop_skip_throttled by done.
    destruct (retry_loop_invokes_first op_name op kw (fuel - S N) (0 + N)
                (VDict [])
                (after (after st [EvLogDebug])
                   (throttled_attempts op_name kw 0 N))) as (rest & Hrun).
    exists rest. rewrite !after_after in *. cbn [app] in *.
    change (0 + N)%nat with N in *. rewrite <- Hrun.
    by destruct (retry_loop _ _ _ _ _ _ _ _) as [[[d|e]|] st'].
  - intros d Hd.
    rewrite (call_non_paginated _ _ _ _ _ _ _ _ _ Hc Hpag Hop Hq).
    replace fuel with (N + S (fuel - S N))%nat by lia.
    rewrite retry_loop_skip_throttled by done.
    rewrite (retry_loop_success _ _ _ _ _ _ _ _ Hd).
    unfold finish. by rewrite !after_after.
  - rewrite (call_non_paginated _ _ _ _ _ _ _ _ _ Hc Hpag Hop Hq).
    replace N with (N + 0)%nat at 1 by lia.
    rewrite retry_loop_skip_throttled by done.
    reflexivity.
Qed.

Lemma call_throttling_takes_precedence_witness :
  let msg := "An error occurred (AccessDenied) when calling the DescribeKey operation: Throttling" in
  let c := Demo.service [] [] [Raises (ClientError msg); Returns Demo.answer] in
  let run := call (Demo.env ∅) 2 "describe_key" None [] (Demo.start c) in
  ignorable msg = true
  ∧ run = (Some (Returns Demo.answer),
           after (Demo.start c)
             [EvLogDebug; EvInvoke "describe_key" [] 0; EvLogDebug; EvSleep 1;
              EvInvoke "describe_key" [] 1])
  ∧ fst (call (Demo.env ∅) 1 "describe_key" None [] (Demo.start c)) = None.
Proof.
  intros msg c run. split; [reflexivity|].
  destruct (call_throttling_takes_precedence (Demo.env ∅) 2 "describe_key"
              None [] (Demo.start c) c
              (Demo.scripted [Raises (ClientError msg); Returns Demo.answer])
              None 1)
    as (_ & Hnext & Hrunning).
  - reflexivity.
  - reflexivity.
  - reflexivity.
  - reflexivity.
  - intros i Hi. destruct i as [|i]; [|lia].
    exists msg. repeat split; reflexivity.
  - lia.
  - split; [exact (Hnext Demo.answer eq_refl)|exact Hrunning].
Defined.







(** ** The paginated path *)

(** C7.  For an operation the client reports as paginatable, [call] asks
    for a paginator, calls [paginate] with the keyword arguments and builds
    the full result: when every page request succeeds it returns the
    aggregate of all the pages (passed through the query when one was
    compiled); when obtaining the paginator, [paginate], or any page request
    raises, that exception is the outcome of [call] whatever its class, and
    no pages are returned.  The operation is never invoked directly and
    nothing is retried, whatever the fuel. *)
Theorem call_paginated_full_result
    env fuel op_name query kw st c query' :
  _client (st_self st) = Some c →
  can_paginate c op_name = Returns true →
  compile_query env query = Returns query' →
  (∀ e, get_paginator c op_name = Raises e →
     call env fuel op_name query kw st
     = (Some (Raises e), after st [EvLogDebug; EvGetPaginator op_name]))
  ∧ (∀ paginator, get_paginator c op_name = Returns paginator →
     (∀ e, paginate paginator kw = Raises e →
        call env fuel op_name query kw st
        = (Some (Raises e),
           after st [EvLogDebug; EvGetPaginator op_name; EvPaginate kw]))
     ∧ (∀ results, paginate paginator kw = Returns results →
        (∀ pages, page_requests results = map Returns pages →
           call env fuel op_name query kw st
           = (Some (apply_query query' (aggregate results pages)),
              after st ([EvLogDebug; EvGetPaginator op_name; EvPaginate kw]
                        ++ map EvPageRequest (seq 0 (length pages)))))
        ∧ (∀ pages e rest,
             page_requests results = map Returns pages ++ Raises e :: rest →
             call env fuel op_name query kw st
             = (Some (Raises e),
                after st ([EvLogDebug; EvGetPaginator op_name; EvPaginate kw]
                          ++ map EvPageRequest (seq 0 (S (length pages)))))))).
Proof.
  intros Hc Hpag Hq.
  rewrite (call_paginated _ _ _ _ _ _ _ _ Hc Hpag Hq).
  rewrite (paginated_path_run _ _ _ c) by done.
  split.
  - intros e ->. unfold finish. by rewrite after_after.
  - intros paginator ->. split.
    + intros e ->. unfold finish. by rewrite after_after.
    + intros results ->. unfold build_full_result, mbind, M_bind, bind. split.
      * intros pages ->. rewrite fetch_pages_all. unfold finish, ret.
        by rewrite !after_after.
      * intros pages e rest ->. rewrite fetch_pages_fail. unfold finish.
        by rewrite !after_after.
Qed.

Lemma call_paginated_full_result_witness :
  let pages := [VInt 1; VInt 2; VInt 3] in
  let c := Demo.service ["list_keys"] (map Returns pages) [] in
  let run := call (Demo.env ∅) 0 "list_keys" None [] (Demo.start c) in
  let c' := Demo.service ["list_keys"] [Returns (VInt 1); Demo.throttling; Returns (VInt 3)] [] in
  let run' := call (Demo.env ∅) 9 "list_keys" None [] (Demo.start c') in
  fst run = Some (Returns (VList pages))
  ∧ invocations (st_trace (snd run)) = []
  ∧ fst run' = Some Demo.throttling
  ∧ sleeps (st_trace (snd run')) = [].
Proof.
  intros pages c run c' run'.
  destruct (call_paginated_full_result (Demo.env ∅) 0 "list_keys" None []
              (Demo.start c) c None eq_refl eq_refl eq_refl)
    as (_ & Hpag).
  destruct (Hpag (Demo.pages_of (map Returns pages)) eq_refl) as (_ & Hres).
  destruct (Hres {| page_requests := map Returns pages; aggregate := VList |}
              eq_refl) as (Hall & _).
  destruct (call_paginated_full_result (Demo.env ∅) 9 "list_keys" None []
              (Demo.start c') c' None eq_refl eq_refl eq_refl)
    as (_ & Hpag').
  destruct (Hpag' (Demo.pages_of
                     [Returns (VInt 1); Demo.throttling; Returns (VInt 3)])
              eq_refl) as (_ & Hres').
  destruct (Hres' {| page_requests :=
                       [Returns (VInt 1); Demo.throttling; Returns (VInt 3)];
                     aggregate := VList |} eq_refl) as (_ & Hfail).
  unfold run, run'.
  rewrite (Hall pages eq_refl).
  rewrite (Hfail [VInt 1] _ [Returns (VInt 3)] eq_refl).
  repeat split; reflexivity.
Defined.

(** ** The query as a post-processing step *)

(** C5.  A call with a query expression [q] (one that jmespath compiles)
    does what the call without a query does on the same state, with the
    same interactions, and then returns the compiled query's [search] of the
    data; when the call without a query raises or does not return, so does
    the call with the query, and nothing is searched.  The call without a
    query returns the data of its path as it is, and a falsy query
    ([None] or the empty string) is no query.  An expression jmespath
    rejects is rejected before any data is fetched. *)
Theorem call_query_post_processes env fuel op_name kw st :
  (∀ q p, q ≠ "" → jmespath_compile env q = Returns p →
     call env fuel op_name (Some q) kw st
     = match call env fuel op_name None kw st with
       | (Some (Returns data), st') => (Some (search p data), st')
       | other => other
       end)
  ∧ call env fuel op_name None kw st
    = (emit EvLogDebug;;
       c ← self_client;
       pageable ← lift (can_paginate c op_name);
       if (pageable : bool) then paginated_path op_name kw
       else non_paginated_path fuel op_name kw) st
  ∧ (∀ query, query_given query = false →
       call env fuel op_name query kw st = call env fuel op_name None kw st)
  ∧ (∀ q e, q ≠ "" → jmespath_compile env q = Raises e →
       call env fuel op_name (Some q) kw st
       = (Some (Raises e), after st [EvLogDebug])).
Proof.
  split; [|split; [|split]].
  - intros q p Hq Hp. unfold call.
    rewrite !bind_emit.
    rewrite (bind_lift_returns _ _ _ _ (compile_query_given env q p Hq Hp)).
    rewrite (bind_lift_returns (compile_query env None) None) by done.
    unfold mbind, M_bind, bind.
    destruct (self_client _) as [[[c|e]|] st1]; [|done..].
    destruct (can_paginate c op_name) as [pageable|e]; [|done].
    cbn [lift].
    destruct (if pageable then _ else _) as [[[d|e]|] st2];
      reflexivity.
  - unfold call. rewrite !bind_emit.
    rewrite (bind_lift_returns (compile_query env None) None) by done.
    unfold mbind, M_bind, bind.
    destruct (self_client _) as [[[c|e]|] st1]; [|done..].
    destruct (can_paginate c op_name) as [pageable|e]; [|done].
    cbn [lift].
    destruct (if pageable then _ else _) as [[[d|e]|] st2];
      reflexivity.
  - intros query Hnone. unfold call. rewrite !bind_emit.
    rewrite (bind_lift_returns _ _ _ _ (compile_query_not_given env _ Hnone)).
    by rewrite (bind_lift_returns (compile_query env None) None).
  - intros q e Hq He. unfold call. rewrite bind_emit.
    apply bind_lift_raises. simpl. rewrite He.
    by destruct (String.eqb_spec q "").
Qed.

Lemma call_query_post_processes_witness :
  let c := Demo.service [] [] [Demo.throttling; Returns Demo.answer] in
  let plain := call (Demo.env ∅) 2 "describe_key" None [] (Demo.start c) in
  let queried := call (Demo.env ∅) 2 "describe_key" (Some "KeyId") [] (Demo.start c) in
  fst plain = Some (Returns Demo.answer)
  ∧ fst queried = Some (Returns (VStr "k-1"))
  ∧ snd queried = snd plain
  ∧ call (Demo.env ∅) 2 "describe_key" (Some "") [] (Demo.start c) = plain.
Proof.
  intros c plain queried.
  destruct (call_query_post_processes (Demo.env ∅) 2 "describe_key" []
              (Demo.start c)) as (Hq & _ & Hfalsy & _).
  split; [reflexivity|].
  unfold queried.
  rewrite (Hq "KeyId" (Demo.field_query "KeyId")); [|discriminate|reflexivity].
  rewrite (Hfalsy (Some "") eq_refl).
  repeat split; reflexivity.
Defined.

(** ** The object is not mutated *)

Create HintDb frame.

Lemma frames_ret {A} (a : A) : frames_self (ret a).
Proof. by intros st. Qed.

Lemma frames_raise {A} e : frames_self (@raise A e).
Proof. by intros st. Qed.

Lemma frames_lift {A} (o : outcome A) : frames_self (lift o).
Proof. by intros st. Qed.

Lemma frames_out_of_fuel {A} : frames_self (@out_of_fuel A).
Proof. by intros st. Qed.

Lemma frames_emit ev : frames_self (emit ev).
Proof. by intros st. Qed.

Lemma frames_get_self : frames_self get_self.
Proof. by intros st. Qed.

Lemma frames_bind {A B} (m : M A) (k : A → M B) :
  frames_self m → (∀ a, frames_self (k a)) → frames_self (x ← m; k x).
Proof.
  intros Hm Hk st. unfold mbind, M_bind, bind.
  specialize (Hm st).
  destruct (m st) as [[[a|e]|] st']; simpl in *; [|done..].
  by rewrite Hk.
Qed.

Lemma frames_if {A} (b : bool) (m1 m2 : M A) :
  frames_self m1 → frames_self m2 → frames_self (if b then m1 else m2).
Proof. by destruct b. Qed.

#[local] Hint Resolve frames_ret frames_raise frames_lift frames_out_of_fuel
  frames_emit frames_get_self frames_if : frame.
#[local] Hint Extern 2 (frames_self (mbind _ _)) =>
  apply frames_bind; [|intros ?] : frame.

Lemma frames_self_client : frames_self self_client.
Proof.
  unfold self_client. apply frames_bind; [auto with frame|].
  intros self. destruct (_client self); auto with frame.
Qed.

Lemma frames_fetch_pages reqs : ∀ i, frames_self (fetch_pages reqs i).
Proof.
  induction reqs as [|r reqs IH]; intros i; simpl; auto 10 with frame.
Qed.

Lemma frames_retry_loop op_name op kw fuel : ∀ n done data,
  frames_self (retry_loop fuel op_name op kw n done data).
Proof.
  induction fuel as [|fuel IH]; intros n done data;
    destruct done; simpl; auto with frame.
  apply frames_bind; [auto with frame|]. intros _.
  destruct (op kw n) as [d|[msg|cls msg|cls]]; auto with frame.
  apply frames_bind; [auto with frame|]. intros _.
  repeat (apply frames_if; auto with frame).
Qed.

#[local] Hint Resolve frames_self_client frames_fetch_pages
  frames_retry_loop : frame.

Lemma frames_paginated_path op_name kw :
  frames_self (paginated_path op_name kw).
Proof.
  unfold paginated_path, build_full_result. auto 12 with frame.
Qed.

Lemma frames_non_paginated_path fuel op_name kw :
  frames_self (non_paginated_path fuel op_name kw).
Proof. unfold non_paginated_path. auto 10 with frame. Qed.

#[local] Hint Resolve frames_paginated_path frames_non_paginated_path : frame.

Lemma frames_call env fuel op_name query kw :
  frames_self (call env fuel op_name query kw).
Proof. unfold call. auto 12 with frame. Qed.

(** C10.  However [call] ends (a result, an exception that reaches the
    caller, or a loop still running when the fuel is spent), on either path,
    the object afterwards is the object before: the six properties
    and the held client handle have the values they had. *)
Theorem call_frames_object env fuel op_name query kw st :
  let self := st_self st in
  let self' := st_self (snd (call env fuel op_name query kw st)) in
  self' = self
  ∧ service_name self' = service_name self
  ∧ region_name self' = region_name self
  ∧ account_id self' = account_id self
  ∧ profile self' = profile self
  ∧ external_id self' = external_id self
  ∧ role_arn self' = role_arn self
  ∧ _client self' = _client self.
Proof.
  intros self self'.
  assert (H : self' = self) by apply frames_call.
  rewrite H. repeat split.
Qed.

(** ** Credential resolution *)

Lemma _create_client_frames env : frames_self (_create_client env).
Proof.
  unfold _create_client, new_session, sts_assume_role.
  apply frames_bind; [auto with frame|]. intros self.
  apply frames_bind.
  { repeat (apply frames_if; auto 20 with frame). }
  intros session. apply frames_bind; [|auto with frame].
  destruct (placebo self); auto 20 with frame.
Qed.

Lemma dict_get_Some (d : Account) k v : d !! k = Some v → dict_get d k = v.
Proof. unfold dict_get. by intros ->. Qed.

Lemma dict_get_None (d : Account) k : d !! k = None → dict_get d k = VNone.
Proof. unfold dict_get. by intros ->. Qed.

(** *** The steps of [_create_client] *)

Lemma _create_client_steps env st :
  _create_client env st
  = (session ← open_session env (st_self st);
     attach_placebo (st_self st) session;;
     session_client (st_self st) session) st.
Proof. reflexivity. Qed.

Lemma dict_or_not (v : pyval) : (∃ kw, v = VDict kw) ∨ (∀ kw, v ≠ VDict kw).
Proof. destruct v; try (by right); left; by eexists. Qed.

Lemma open_session_explicit env self st kw :
  truthy (aws_creds self) = true →
  aws_creds self = VDict kw →
  open_session env self st
  = (Some (boto3_Session env (SessKwargs kw)),
     after st [EvSession (SessKwargs kw)]).
Proof.
  intros Htruthy Hkw. unfold open_session. rewrite Htruthy, Hkw.
  reflexivity.
Qed.

Lemma open_session_not_mapping env self st :
  truthy (aws_creds self) = true →
  (∀ kw, aws_creds self ≠ VDict kw) →
  open_session env self st = (Some (Raises NotAMapping), st).
Proof.
  intros Htruthy Hnot. unfold open_session. rewrite Htruthy.
  destruct (aws_creds self) as [| | | | |kw| |]; try reflexivity.
  by destruct (Hnot kw).
Qed.

Lemma open_session_profile env self st :
  truthy (aws_creds self) = false →
  truthy (profile self) = true →
  open_session env self st
  = (Some (boto3_Session env (SessProfile (profile self))),
     after st [EvSession (SessProfile (profile self))]).
Proof.
  intros Hcreds Hprof. unfold open_session. by rewrite Hcreds, Hprof.
Qed.

Lemma open_session_role env self st :
  truthy (aws_creds self) = false →
  truthy (profile self) = false →
  open_session env self st
  = match boto3_client env "sts" with
    | Raises e => (Some (Raises e), after st [EvStsClient])
    | Returns sts =>
        let ext := if truthy (external_id self) then Some (external_id self)
                   else None in
        let evs := [EvStsClient; EvAssumeRole (role_arn self) "skew" ext] in
        match assume_role sts (role_arn self) "skew" ext with
        | Raises e => (Some (Raises e), after st evs)
        | Returns assumed_role =>
            match temporary_keys assumed_role with
            | Raises e => (Some (Raises e), after st evs)
            | Returns (access_key, secret_key, token) =>
                (Some (boto3_Session env (SessKeys access_key secret_key token)),
                 after st (evs ++ [EvSession (SessKeys access_key secret_key token)]))
            end
        end
    end.
Proof.
  intros Hcreds Hprof. unfold open_session. rewrite Hcreds, Hprof.
  unfold new_session, sts_assume_role, temporary_keys,
    mbind, M_bind, bind, emit, lift, after.
  cbn [st_self st_trace].
  destruct (boto3_client env "sts") as [sts|e]; [|reflexivity].
  destruct (truthy (external_id self));
    cbv zeta; cbn [st_self st_trace];
    (destruct (assume_role sts _ _ _) as [assumed_role|e];
     [|by rewrite <- app_assoc]);
    cbn [obind];
    (destruct (getitem assumed_role "Credentials") as [creds|e];
     [|by rewrite <- app_assoc]);
    cbn [obind];
    (destruct (getitem creds "AccessKeyId") as [k|e];
     [|by rewrite <- app_assoc]);
    cbn [obind];
    (destruct (getitem creds "SecretAccessKey") as [s|e];
     [|by rewrite <- app_assoc]);
    cbn [obind];
    (destruct (getitem creds "SessionToken") as [t|e];
     [|by rewrite <- app_assoc]);
    cbn [obind st_self st_trace]; by rewrite <- !app_assoc.
Qed.

(** What opening the session records: only session interactions, and,
    when a session comes out of it, the interactions of the branch taken
    followed by the one call that opened it. *)
Lemma open_session_run env self st :
  ∃ r pre,
    open_session env self st = (Some r, after st pre)
    ∧ forallb session_event pre = true
    ∧ (∀ session, r = Returns session →
         ∃ args, pre = opening_events self ++ [EvSession args]
                 ∧ opens_with self args).
Proof.
  unfold opening_events.
  destruct (truthy (aws_creds self)) eqn:Hcreds.
  { destruct (dict_or_not (aws_creds self)) as [[kw Hkw]|Hnot].
    - rewrite (open_session_explicit _ _ _ kw) by done.
      eexists _, [_]. split; [done|]. split; [done|].
      intros session _. exists (SessKwargs kw). split; [done|].
      simpl. by rewrite Hcreds, Hkw.
    - rewrite open_session_not_mapping by done.
      exists (Raises NotAMapping), []. by rewrite after_nil. }
  destruct (truthy (profile self)) eqn:Hprof.
  { rewrite open_session_profile by done.
    eexists _, [_]. split; [done|]. split; [done|].
    intros session _. exists (SessProfile (profile self)). split; [done|].
    simpl. by rewrite Hcreds, Hprof. }
  rewrite (open_session_role _ _ _ Hcreds Hprof).
  destruct (boto3_client env "sts") as [sts|e]; [|by eexists _, _].
  cbv zeta.
  destruct (assume_role sts _ _ _) as [assumed_role|e]; [|by eexists _, _].
  destruct (temporary_keys assumed_role) as [[[k s] t]|e]; [|by eexists _, _].
  eexists _, _. split; [done|]. split; [done|].
  intros session _. exists (SessKeys k s t). split; [done|].
  simpl. by rewrite Hcreds, Hprof.
Qed.

Lemma attach_placebo_run self session st :
  ∃ r plc, attach_placebo self session st = (Some r, after st plc)
           ∧ forallb placebo_event plc = true
           ∧ (placebo_events self = [] → plc = [])
           ∧ (r = Returns tt → plc = placebo_events self).
Proof.
  unfold attach_placebo, placebo_events, mbind, M_bind, bind, emit, lift, ret.
  destruct (placebo self) as [plc|].
  2:{ exists (Returns tt), []. by rewrite after_nil. }
  destruct (truthy (placebo_dir self)).
  2:{ exists (Returns tt), []. by rewrite after_nil. }
  cbn [st_self st_trace].
  destruct (attach plc session (placebo_dir self)) as [pill|e].
  2:{ eexists _, [_]. repeat split; done. }
  destruct (eq_str (placebo_mode self) "record").
  { cbn [st_self st_trace].
    destruct (record pill) as [[]|e]; eexists _, [_; _];
      (split; [unfold after; simpl; by rewrite <- app_assoc|done]). }
  destruct (eq_str (placebo_mode self) "playback").
  { cbn [st_self st_trace].
    destruct (playback pill) as [[]|e]; eexists _, [_; _];
      (split; [unfold after; simpl; by rewrite <- app_assoc|done]). }
  eexists _, [_]. repeat split; done.
Qed.

(** Once the session step has run, the rest of [_create_client]: on a
    failure nothing more happens; on a session, the harness step and the
    creation of the client follow. *)
Lemma _create_client_split env st r1 pre :
  open_session env (st_self st) st = (Some r1, after st pre) →
  ∃ r plc fin,
    _create_client env st = (Some r, after st (pre ++ plc ++ fin))
    ∧ forallb placebo_event plc = true
    ∧ (placebo_events (st_self st) = [] → plc = [])
    ∧ (fin = [] ∨ fin = [EvClient (service_name (st_self st)) client_config
                           (client_region (st_self st))])
    ∧ (∀ e, r1 = Raises e → r = Raises e ∧ plc = [] ∧ fin = [])
    ∧ (∀ c, r = Returns c →
         (∃ session, r1 = Returns session)
         ∧ plc = placebo_events (st_self st)
         ∧ fin = [EvClient (service_name (st_self st)) client_config
                    (client_region (st_self st))]).
Proof.
  intros Hopen. rewrite _create_client_steps. unfold mbind, M_bind, bind.
  rewrite Hopen. destruct r1 as [session|e].
  2:{ exists (Raises e), [], []. rewrite !app_nil_r.
      repeat split; intros; simplify_eq; auto. }
  destruct (attach_placebo_run (st_self st) session (after st pre))
    as (r2 & plc & Hrun & Hplc & Hnone & Hall).
  cbn [after st_self] in *. rewrite Hrun.
  destruct r2 as [[]|e].
  2:{ exists (Raises e), plc, []. rewrite app_nil_r, after_after.
      repeat split; intros; simplify_eq; auto. }
  unfold session_client. rewrite bind_emit. unfold lift.
  eexists _, plc, [_]. rewrite !after_after.
  split; [reflexivity|]. repeat split; intros; simplify_eq; eauto.
Qed.

Lemma _create_client_run env st :
  ∃ r pre plc fin,
    _create_client env st = (Some r, after st (pre ++ plc ++ fin))
    ∧ forallb session_event pre = true
    ∧ forallb placebo_event plc = true
    ∧ (placebo_events (st_self st) = [] → plc = [])
    ∧ (fin = [] ∨ fin = [EvClient (service_name (st_self st)) client_config
                           (client_region (st_self st))])
    ∧ (∀ c, r = Returns c →
         plc = placebo_events (st_self st)
         ∧ fin = [EvClient (service_name (st_self st)) client_config
                    (client_region (st_self st))]
         ∧ ∃ args, pre = opening_events (st_self st) ++ [EvSession args]
                   ∧ opens_with (st_self st) args).
Proof.
  destruct (open_session_run env (st_self st) st)
    as (r1 & pre & Hopen & Hpre & Hargs).
  destruct (_create_client_split env st r1 pre Hopen)
    as (r & plc & fin & Hrun & Hplc & Hnone & Hfin & _ & Hret).
  exists r, pre, plc, fin. repeat split; auto.
  - by destruct (Hret c H) as (_ & ? & _).
  - by destruct (Hret c H) as (_ & _ & ?).
  - destruct (Hret c H) as ((session & ->) & _). by apply (Hargs session).
Qed.

(** *** The mode a construction commits to *)

Lemma selected_modes_app tr1 tr2 :
  selected_modes (tr1 ++ tr2) = selected_modes tr1 ++ selected_modes tr2.
Proof.
  induction tr1 as [|ev tr1 IH]; [done|].
  simpl. destruct (mode_of_event ev); simpl; by rewrite IH.
Qed.

Lemma selected_modes_placebo plc :
  forallb placebo_event plc = true → selected_modes plc = [].
Proof.
  induction plc as [|ev plc IH]; [done|].
  simpl. intros [Hev Hplc]%andb_true_iff. rewrite (IH Hplc).
  by destruct ev.
Qed.

(** Whatever the SDK answers, [_create_client] commits to exactly one
    mode, the one of the branch it takes, provided truthy credentials are
    a dict (anything else cannot be unpacked, and a [TypeError] ends the
    construction) and the STS client of the role branch can be obtained
    (a failure to obtain it ends the construction there). *)
Lemma _create_client_modes_or_sts env st :
  (truthy (aws_creds (st_self st)) = true →
   ∃ kw, aws_creds (st_self st) = VDict kw) →
  match resolved_mode (st_self st), boto3_client env "sts" with
  | AssumedRole _ _, Raises e =>
      _create_client env st = (Some (Raises e), after st [EvStsClient])
  | mode, _ =>
      ∃ r evs, _create_client env st = (r, after st evs)
               ∧ selected_modes evs = [mode]
  end.
Proof.
  intros Hmap. unfold resolved_mode.
  assert (Hrest : ∀ r1 pre mode,
    open_session env (st_self st) st = (Some r1, after st pre) →
    selected_modes pre = [mode] →
    ∃ r evs, _create_client env st = (r, after st evs)
             ∧ selected_modes evs = [mode]).
  { intros r1 pre mode Hopen Hmode.
    destruct (_create_client_split env st r1 pre Hopen)
      as (r & plc & fin & Hrun & Hplc & _ & Hfin & _).
    exists (Some r), (pre ++ plc ++ fin). split; [done|].
    rewrite !selected_modes_app, Hmode, (selected_modes_placebo _ Hplc).
    by destruct Hfin as [->| ->]. }
  destruct (truthy (aws_creds (st_self st))) eqn:Hcreds.
  { destruct (Hmap eq_refl) as (kw & Hkw). rewrite Hkw.
    eapply Hrest.
    - by apply open_session_explicit.
    - reflexivity. }
  destruct (truthy (profile (st_self st))) eqn:Hprof.
  { eapply Hrest.
    - by apply open_session_profile.
    - reflexivity. }
  pose proof (open_session_role env (st_self st) st Hcreds Hprof) as Hopen.
  destruct (boto3_client env "sts") as [sts|e].
  2:{ destruct (_create_client_split env st _ _ Hopen)
        as (r & plc & fin & Hrun & _ & _ & _ & Hfail & _).
      destruct (Hfail e eq_refl) as (-> & -> & ->).
      by rewrite !app_nil_r in Hrun. }
  cbv zeta in Hopen.
  destruct (assume_role sts _ _ _) as [assumed_role|e];
    [|by eapply Hrest].
  destruct (temporary_keys assumed_role) as [[[k s] t]|e];
    by eapply Hrest.
Qed.

Lemma _create_client_modes env st sts :
  boto3_client env "sts" = Returns sts →
  (truthy (aws_creds (st_self st)) = true →
   ∃ kw, aws_creds (st_self st) = VDict kw) →
  ∃ r evs, _create_client env st = (r, after st evs)
           ∧ selected_modes evs = [resolved_mode (st_self st)].
Proof.
  intros Hsts Hmap.
  pose proof (_create_client_modes_or_sts env st Hmap) as Hmodes.
  rewrite Hsts in Hmodes.
  by destruct (resolved_mode (st_self st)).
Qed.

(** *** From the constructor to [_create_client] *)

Lemma __init___reaches_create_client env sn rn account_id kw cfg acct :
  effective_config env kw = Returns cfg →
  account_of cfg account_id = Returns acct →
  __init__ env sn rn account_id kw {| st_self := fresh; st_trace := [] |}
  = (c ← _create_client env; assign (set__client (Some c)))
      {| st_self := attributes_of cfg sn rn account_id kw acct;
         st_trace := [] |}.
Proof.
  intros Hcfg Hacct. unfold __init__, attributes_of.
  rewrite (bind_lift_returns _ _ _ _ Hcfg).
  unfold mbind, M_bind, bind, assign, get_self, lift, ret.
  pose proof (dict_get_Some acct) as HSome.
  pose proof (dict_get_None acct) as HNone.
  destruct (is_None (kw_aws_creds kw)) eqn:Harg;
    cbn -[dict_get _create_client]; rewrite ?Harg, ?Hacct;
    cbn -[dict_get _create_client]; [|by rewrite ?Harg].
  destruct (is_None (dict_get acct "credentials")) eqn:Hcreds;
    cbn -[dict_get _create_client]; rewrite ?Hacct;
    cbn -[dict_get _create_client]; [|reflexivity].
  destruct (acct !! "profile") as [p|] eqn:Hp;
    [by rewrite (HSome _ _ Hp)|rewrite (HNone _ Hp)].
  destruct (acct !! "role_arn") as [r|] eqn:Hr;
    [rewrite (HSome _ _ Hr)|by rewrite (HNone _ Hr)].
  destruct (acct !! "external_id") as [x|] eqn:Hx;
    [by rewrite (HSome _ _ Hx)|by rewrite (HNone _ Hx)].
Qed.

Lemma new_AWSClient_run env sn rn account_id kw :
  new_AWSClient env sn rn account_id kw
  = match effective_config env kw with
    | Raises e => (Some (Raises e), [])
    | Returns cfg =>
        match (if is_None (kw_aws_creds kw) then account_of cfg account_id
               else Returns ∅) with
        | Raises e => (Some (Raises e), [])
        | Returns acct =>
            built_from env (attributes_of cfg sn rn account_id kw acct)
        end
    end.
Proof.
  destruct (effective_config env kw) as [cfg|e] eqn:Hcfg.
  2:{ unfold new_AWSClient, __init__.
      by rewrite (bind_lift_raises _ _ _ _ Hcfg). }
  destruct (is_None (kw_aws_creds kw)) eqn:Harg.
  - destruct (account_of cfg account_id) as [acct|e] eqn:Hacct.
    + unfold new_AWSClient, built_from.
      rewrite (__init___reaches_create_client _ _ _ _ _ _ _ Hcfg Hacct).
      unfold mbind, M_bind, bind.
      by destruct (_create_client env _) as [[[c|e]|] st'].
    + unfold new_AWSClient, __init__.
      rewrite (bind_lift_returns _ _ _ _ Hcfg).
      unfold mbind, M_bind, bind, assign, get_self, lift, ret.
      cbn -[_create_client]. rewrite Harg.
      cbn -[_create_client]. by rewrite Hacct.
  - unfold new_AWSClient, built_from, __init__, attributes_of.
    rewrite (bind_lift_returns _ _ _ _ Hcfg).
    unfold mbind, M_bind, bind, assign, get_self, lift, ret.
    cbn -[_create_client dict_get]. rewrite !Harg.
    cbn -[_create_client dict_get]. rewrite ?Harg.
    cbn -[_create_client dict_get].
    by destruct (_create_client env _) as [[[c|e]|] st'].
Qed.


Lemma snd_built_from env self0 r evs :
  _create_client env {| st_self := self0; st_trace := [] |}
  = (r, after {| st_self := self0; st_trace := [] |} evs) →
  snd (built_from env self0) = evs.
Proof.
  intros Hrun. unfold built_from. rewrite Hrun.
  by destruct r as [[c|e]|].
Qed.

Lemma new_AWSClient_modes env sn rn account_id kw cfg acct sts :
  effective_config env kw = Returns cfg →
  account_of cfg account_id = Returns acct →
  boto3_client env "sts" = Returns sts →
  (truthy (aws_creds (attributes_of cfg sn rn account_id kw acct)) = true →
   ∃ d, aws_creds (attributes_of cfg sn rn account_id kw acct) = VDict d) →
  selected_modes (snd (new_AWSClient env sn rn account_id kw))
  = [resolved_mode (attributes_of cfg sn rn account_id kw acct)].
Proof.
  intros Hcfg Hacct Hsts Hmap. unfold new_AWSClient.
  rewrite (__init___reaches_create_client _ _ _ _ _ _ _ Hcfg Hacct).
  unfold mbind, M_bind, bind.
  destruct (_create_client_modes env
              {| st_self := attributes_of cfg sn rn account_id kw acct;
                 st_trace := [] |} sts Hsts Hmap) as (r & evs & -> & Hmodes).
  destruct r as [[c|e]|]; exact Hmodes.
Qed.

Lemma new_AWSClient_built_from env sn rn account_id kw cfg acct :
  effective_config env kw = Returns cfg →
  account_of cfg account_id = Returns acct →
  new_AWSClient env sn rn account_id kw
  = built_from env (attributes_of cfg sn rn account_id kw acct).
Proof.
  intros Hcfg Hacct. unfold new_AWSClient, built_from.
  rewrite (__init___reaches_create_client _ _ _ _ _ _ _ Hcfg Hacct).
  unfold mbind, M_bind, bind.
  by destruct (_create_client env _) as [[[c|e]|] st'].
Qed.

(** On plain inputs the branch [_create_client] takes is the one the
    precedence names, role assumption standing in for the ambient mode. *)
Lemma resolved_mode_plain cfg sn rn account_id kw acct :
  plain_inputs (kw_aws_creds kw) acct →
  let self := attributes_of cfg sn rn account_id kw acct in
  resolved_mode self = without_ambient (spec_precedence (kw_aws_creds kw) acct)
  ∧ (truthy (aws_creds self) = true → ∃ d, aws_creds self = VDict d).
Proof.
  intros (Harg & Hcreds & Hprof & Hext) self.
  unfold self, resolved_mode, spec_precedence, attributes_of, profile,
    external_id, role_arn. cbn -[dict_get].
  destruct (kw_aws_creds kw) as [| | | | |[|kv d]| |] eqn:Hkw;
    try done; cbn -[dict_get].
  2:{ split; [done|]. intros _. by eexists. }
  destruct (dict_get acct "credentials") as [| | | | |[|kv d]| |] eqn:Hc;
    try done; cbn -[dict_get].
  2:{ split; [done|]. intros _. by eexists. }
  split; [|done].
  destruct (acct !! "profile") as [p|] eqn:Hp.
  { rewrite (dict_get_Some _ _ _ Hp). simpl in Hprof. by rewrite Hprof. }
  rewrite (dict_get_None _ _ Hp). cbn -[dict_get].
  destruct (acct !! "role_arn") as [r|] eqn:Hr.
  - rewrite (dict_get_Some _ _ _ Hr). cbn -[dict_get].
    destruct (acct !! "external_id") as [x|] eqn:Hx.
    + rewrite (dict_get_Some _ _ _ Hx). simpl in Hext. by rewrite Hext.
    + by rewrite (dict_get_None _ _ Hx).
  - by rewrite (dict_get_None _ _ Hr).
Qed.

(** C3, as amended.  For every constructor-argument combination and
    account configuration whose present entries are usable (credentials
    [None] or a non-empty dict, [profile] and [external_id] truthy when
    configured), construction commits to exactly one mode, by the fixed
    precedence: the credentials passed to the constructor, else those of
    the account configuration, else its named profile, else role
    assumption with its [role_arn] ([None] when there is none), with
    [ExternalId] only when one is configured.  A configured profile wins
    over a configured [role_arn].  There is no ambient mode.  The one
    exception: when role assumption is the mode and the STS client cannot
    be obtained, construction ends there with that exception. *)
Theorem credential_precedence env sn rn account_id kw cfg acct :
  effective_config env kw = Returns cfg →
  account_of cfg account_id = Returns acct →
  plain_inputs (kw_aws_creds kw) acct →
  let built := new_AWSClient env sn rn account_id kw in
  match without_ambient (spec_precedence (kw_aws_creds kw) acct),
        boto3_client env "sts" with
  | AssumedRole _ _, Raises e => built = (Some (Raises e), [EvStsClient])
  | mode, _ => selected_modes (snd built) = [mode]
  end.
Proof.
  intros Hcfg Hacct Hplain built. unfold built.
  rewrite (new_AWSClient_built_from _ _ _ _ _ _ _ Hcfg Hacct).
  destruct (resolved_mode_plain cfg sn rn account_id kw acct Hplain)
    as (Hmode & Hmap).
  pose proof (_create_client_modes_or_sts env
                {| st_self := attributes_of cfg sn rn account_id kw acct;
                   st_trace := [] |} Hmap) as Hrun.
  cbn [st_self] in Hrun. rewrite Hmode in Hrun.
  destruct (without_ambient (spec_precedence (kw_aws_creds kw) acct))
    as [creds|p|arn ext|];
    try (destruct Hrun as (r & evs & Hrun & Hmodes);
         by rewrite (snd_built_from _ _ _ _ Hrun)).
  destruct (boto3_client env "sts") as [sts|e].
  - destruct Hrun as (r & evs & Hrun & Hmodes).
    by rewrite (snd_built_from _ _ _ _ Hrun).
  - unfold built_from. by rewrite Hrun.
Qed.

Lemma credential_precedence_witness :
  let both := {[ "profile" := VStr "dev"; "role_arn" := VStr "arn:aws:iam::123456789012:role/audit" ]} in
  let role := {[ "role_arn" := VStr "arn:aws:iam::123456789012:role/audit";
                 "external_id" := VStr "skew-42" ]} in
  let modes acct :=
    selected_modes (snd (new_AWSClient (Demo.env (Demo.one_account acct)) "ec2"
                           (VStr "us-east-1") "123456789012" Demo.no_kwargs)) in
  modes both = [NamedProfile (VStr "dev")]
  ∧ modes role = [AssumedRole (VStr "arn:aws:iam::123456789012:role/audit")
                    (Some (VStr "skew-42"))].
Proof.
  intros both role modes. unfold modes. split.
  - assert (Hplain : plain_inputs (kw_aws_creds Demo.no_kwargs) both).
    { vm_compute. repeat split; auto. }
    exact (credential_precedence (Demo.env (Demo.one_account both)) "ec2"
             (VStr "us-east-1") "123456789012" Demo.no_kwargs
             (Demo.one_account both) both eq_refl eq_refl Hplain).
  - assert (Hplain : plain_inputs (kw_aws_creds Demo.no_kwargs) role).
    { vm_compute. repeat split; auto. }
    exact (credential_precedence (Demo.env (Demo.one_account role)) "ec2"
             (VStr "us-east-1") "123456789012" Demo.no_kwargs
             (Demo.one_account role) role eq_refl eq_refl Hplain).
Defined.

(** C3 as stated fails where nothing is configured: the specification's
    precedence ends in the ambient mode, the constructor assumes a role
    with [RoleArn=None]. *)
Lemma credential_precedence_counterexample :
  let acct : Account := {[ "alias" := VStr "prod" ]} in
  let built := new_AWSClient (Demo.env (Demo.one_account acct)) "ec2"
                 (VStr "us-east-1") "123456789012" Demo.no_kwargs in
  spec_precedence (kw_aws_creds Demo.no_kwargs) acct = Ambient
  ∧ selected_modes (snd built) = [AssumedRole VNone None]
  ∧ selected_modes (snd built)
    ≠ [spec_precedence (kw_aws_creds Demo.no_kwargs) acct].
Proof.
  intros acct built. split; [reflexivity|]. split; [reflexivity|].
  intros H. vm_compute in H. discriminate H.
Qed.

Lemma attributes_of_nothing_configured cfg sn rn account_id kw acct :
  kw_aws_creds kw = VNone →
  dict_get acct "credentials" = VNone →
  acct !! "profile" = None →
  acct !! "role_arn" = None →
  let self := attributes_of cfg sn rn account_id kw acct in
  aws_creds self = VNone ∧ profile self = VNone
  ∧ role_arn self = VNone ∧ external_id self = VNone.
Proof.
  intros Harg Hcreds Hp Hr. unfold attributes_of, profile, role_arn, external_id.
  cbn -[dict_get]. rewrite Harg. cbn -[dict_get]. rewrite Hcreds.
  cbn -[dict_get]. rewrite Hp, Hr, (dict_get_None _ _ Hp), (dict_get_None _ _ Hr).
  done.
Qed.

(** C2, as amended.  With no credentials passed, and an account
    configuration holding neither credentials nor a profile nor a
    [role_arn], the constructor takes the role-assumption branch all the
    same: it obtains an STS client and calls [assume_role] with
    [RoleArn=None] and no [ExternalId].  That is the only mode it commits
    to; no session is opened without credentials.  An exception raised by
    [assume_role] is the outcome of the construction, and when
    [assume_role] answers with temporary credentials the session is opened
    with those. *)
Theorem nothing_configured_assumes_role
    env sn rn account_id kw cfg acct sts :
  kw_aws_creds kw = VNone →
  effective_config env kw = Returns cfg →
  account_of cfg account_id = Returns acct →
  dict_get acct "credentials" = VNone →
  acct !! "profile" = None →
  acct !! "role_arn" = None →
  boto3_client env "sts" = Returns sts →
  let built := new_AWSClient env sn rn account_id kw in
  selected_modes (snd built) = [AssumedRole VNone None]
  ∧ (∃ evs, snd built = EvStsClient :: EvAssumeRole VNone "skew" None :: evs)
  ∧ (∀ e, assume_role sts VNone "skew" None = Raises e →
       built = (Some (Raises e), [EvStsClient; EvAssumeRole VNone "skew" None]))
  ∧ (∀ assumed creds key secret token,
       assume_role sts VNone "skew" None = Returns assumed →
       getitem assumed "Credentials" = Returns creds →
       getitem creds "AccessKeyId" = Returns key →
       getitem creds "SecretAccessKey" = Returns secret →
       getitem creds "SessionToken" = Returns token →
       ∃ evs, snd built
              = EvStsClient :: EvAssumeRole VNone "skew" None
                :: EvSession (SessKeys key secret token) :: evs).
Proof.
  intros Harg Hcfg Hacct Hcreds Hp Hr Hsts built.
  destruct (attributes_of_nothing_configured cfg sn rn account_id kw acct
              Harg Hcreds Hp Hr) as (Hc & Hprof & Harn & Hext).
  set (self0 := attributes_of cfg sn rn account_id kw acct) in *.
  set (st0 := {| st_self := self0; st_trace := [] |}).
  assert (Hbuilt : built = built_from env self0).
  { by apply new_AWSClient_built_from. }
  assert (Hcf : truthy (aws_creds self0) = false) by by rewrite Hc.
  assert (Hpf : truthy (profile self0) = false) by by rewrite Hprof.
  pose proof (open_session_role env self0 st0 Hcf Hpf) as Hopen.
  rewrite Hsts, Harn, Hext in Hopen. cbv zeta in Hopen. cbn [truthy] in Hopen.
  assert (Hsnd : ∀ r1 pre,
    open_session env self0 st0 = (Some r1, after st0 pre) →
    ∃ more, snd built = pre ++ more).
  { intros r1 pre H.
    destruct (_create_client_split env st0 r1 pre H)
      as (r & plc & fin & Hrun & _).
    exists (plc ++ fin). rewrite Hbuilt.
    by apply (snd_built_from _ _ (Some r)). }
  split; [|split; [|split]].
  - unfold built.
    rewrite (new_AWSClient_modes _ _ _ _ _ _ _ _ Hcfg Hacct Hsts).
    + unfold resolved_mode. fold self0. by rewrite Hc, Hprof, Harn, Hext.
    + fold self0. by rewrite Hcf.
  - destruct (assume_role sts VNone "skew" None) as [assumed_role|e].
    + destruct (temporary_keys assumed_role) as [[[k s] t]|e];
        destruct (Hsnd _ _ Hopen) as (more & ->); by eexists.
    + destruct (Hsnd _ _ Hopen) as (more & ->). by eexists.
  - intros e He. rewrite He in Hopen.
    destruct (_create_client_split env st0 _ _ Hopen)
      as (r & plc & fin & Hrun & _ & _ & _ & Hfail & _).
    destruct (Hfail e eq_refl) as (-> & -> & ->).
    rewrite Hbuilt. unfold built_from. fold st0. by rewrite Hrun.
  - intros assumed creds key secret token Hresp Hcr Hk Hs Ht.
    rewrite Hresp in Hopen.
    assert (Hkeys : temporary_keys assumed = Returns (key, secret, token)).
    { unfold temporary_keys. rewrite Hcr. cbn [obind].
      by rewrite Hk, Hs, Ht. }
    rewrite Hkeys in Hopen.
    destruct (Hsnd _ _ Hopen) as (more & ->). by eexists.
Qed.

Lemma nothing_configured_assumes_role_witness :
  let built := new_AWSClient (Demo.env (Demo.one_account ∅)) "ec2"
                 (VStr "us-east-1") "123456789012" Demo.no_kwargs in
  selected_modes (snd built) = [AssumedRole VNone None]
  ∧ built = (Some (Raises (OtherException "ParamValidationError" "RoleArn")),
             [EvStsClient; EvAssumeRole VNone "skew" None]).
Proof.
  intros built.
  destruct (nothing_configured_assumes_role (Demo.env (Demo.one_account ∅))
              "ec2" (VStr "us-east-1") "123456789012" Demo.no_kwargs
              (Demo.one_account ∅) ∅ Demo.sts)
    as (Hmodes & _ & Hraise & _); try reflexivity.
  split; [exact Hmodes|].
  exact (Hraise _ eq_refl).
Defined.

(** C2 as stated fails: with an empty account configuration and no
    credentials passed, a role assumption is attempted (with
    [RoleArn=None]), no session is opened without credentials, and, the
    STS endpoint rejecting a [RoleArn] that is not a string, the
    construction fails with that rejection. *)
Lemma nothing_configured_counterexample :
  let built := new_AWSClient (Demo.env (Demo.one_account ∅)) "kms"
                 VNone "123456789012" Demo.no_kwargs in
  snd built = [EvStsClient; EvAssumeRole VNone "skew" None]
  ∧ ¬ In (EvSession SessDefault) (snd built)
  ∧ ¬ In Ambient (selected_modes (snd built))
  ∧ fst built = Some (Raises (OtherException "ParamValidationError" "RoleArn")).
Proof.
  intros built. split; [reflexivity|].
  split; [|split; [|reflexivity]]; vm_compute; intuition discriminate.
Qed.

(** ** Decimal rendering *)

Lemma sapp_cons x (a b : string) : String x a +:+ b = String x (a +:+ b).
Proof. reflexivity. Qed.

Lemma sapp_assoc (a b c : string) : (a +:+ b) +:+ c = a +:+ (b +:+ c).
Proof. induction a as [|x a IH]; [done|]. by rewrite !sapp_cons, IH. Qed.

Lemma sapp_nil_r (a : string) : a +:+ "" = a.
Proof. induction a as [|x a IH]; [done|]. by rewrite sapp_cons, IH. Qed.

Lemma length_sapp (a b : string) :
  String.length (a +:+ b) = (String.length a + String.length b)%nat.
Proof.
  induction a as [|x a IH]; [done|]. rewrite sapp_cons. simpl. by rewrite IH.
Qed.

Lemma all_digits_sapp (a b : string) :
  all_digits (a +:+ b) = all_digits a && all_digits b.
Proof.
  induction a as [|x a IH]; [done|].
  rewrite sapp_cons. simpl. by rewrite IH, andb_assoc.
Qed.

Lemma zeros_snoc k : zeros k +:+ "0" = zeros (S k).
Proof.
  induction k as [|k IH]; [done|].
  change (zeros (S k)) with (String "0"%char (zeros k)) at 1.
  rewrite sapp_cons, IH. reflexivity.
Qed.

Lemma fixed_zero k : fixed k 0 = zeros k.
Proof.
  induction k as [|k IH]; [done|].
  cbn [fixed]. change (0 / 10)%N with 0%N. rewrite IH. apply zeros_snoc.
Qed.

Lemma length_fixed w : ∀ n, String.length (fixed w n) = w.
Proof.
  induction w as [|w IH]; intros n; [done|].
  cbn [fixed]. rewrite length_sapp, IH. simpl. lia.
Qed.

Lemma is_digit_digit n : is_digit (digit n) = true.
Proof.
  unfold is_digit, digit.
  assert (Hlt : (n mod 10 < 10)%N) by by apply N.mod_lt.
  generalize dependent (n mod 10)%N. intros r Hlt.
  rewrite Ascii.N_ascii_embedding by lia.
  apply andb_true_iff. split; apply N.leb_le; lia.
Qed.

Lemma all_digits_fixed w : ∀ n, all_digits (fixed w n) = true.
Proof.
  induction w as [|w IH]; intros n; [done|].
  cbn [fixed]. rewrite all_digits_sapp, IH. simpl.
  by rewrite is_digit_digit.
Qed.

Lemma fixed_pad k w : ∀ n,
  (n < 10 ^ N.of_nat w)%N → fixed (k + w) n = zeros k +:+ fixed w n.
Proof.
  induction w as [|w IH]; intros n Hn.
  - simpl in Hn. assert (n = 0%N) as -> by lia.
    rewrite Nat.add_0_r, fixed_zero. simpl. by rewrite sapp_nil_r.
  - replace (k + S w)%nat with (S (k + w)) by lia. cbn [fixed].
    rewrite IH, sapp_assoc; [done|].
    rewrite Nat2N.inj_succ, N.pow_succ_r' in Hn.
    apply N.Div0.div_lt_upper_bound. lia.
Qed.

(** With enough fuel, [decimal_aux] writes the digits of [n], as many as
    [n] has and no leading zero. *)
Lemma decimal_aux_fixed fuel : ∀ n,
  (n < 10 ^ N.of_nat fuel)%N → (0 < fuel)%nat →
  ∃ w : nat, (1 ≤ w)%nat ∧ (w = 1%nat ∨ (10 ^ N.of_nat (w - 1) ≤ n)%N)
       ∧ (n < 10 ^ N.of_nat w)%N
       ∧ ∀ acc, decimal_aux fuel n acc = fixed w n +:+ acc.
Proof.
  induction fuel as [|fuel IH]; intros n Hn Hfuel; [lia|].
  cbn [decimal_aux].
  destruct (N.eqb_spec (n / 10) 0) as [Hz|Hnz].
  - exists 1%nat. split; [lia|]. split; [by left|]. split.
    + change (10 ^ N.of_nat 1)%N with 10%N.
      pose proof (N.div_mod n 10). pose proof (N.mod_lt n 10). lia.
    + intros acc. reflexivity.
  - rewrite Nat2N.inj_succ, N.pow_succ_r' in Hn.
    assert (Hqpos : (0 < n / 10)%N) by by apply N.neq_0_lt_0.
    assert (Hdiv : (n / 10 < 10 ^ N.of_nat fuel)%N).
    { apply N.Div0.div_lt_upper_bound. lia. }
    assert (Hpos : (0 < fuel)%nat).
    { destruct fuel; [|lia].
      change (10 ^ N.of_nat 0)%N with 1%N in Hdiv.
      exfalso. apply Hnz. by apply N.lt_1_r. }
    destruct (IH _ Hdiv Hpos) as (w & Hw & Hmin & Hup & Heq).
    exists (S w). split; [lia|]. split; [|split].
    + right. replace (S w - 1)%nat with w by lia.
      assert (Hge : (10 ^ N.of_nat w <= 10 * (n / 10))%N).
      { destruct Hmin as [->|Hmin].
        - simpl. lia.
        - replace w with (S (w - 1)) at 1 by lia.
          rewrite Nat2N.inj_succ, N.pow_succ_r'. lia. }
      pose proof (N.Div0.mul_div_le n 10). lia.
    + rewrite Nat2N.inj_succ, N.pow_succ_r'.
      pose proof (N.div_mod n 10). pose proof (N.mod_lt n 10). lia.
    + intros acc. rewrite Heq. cbn [fixed]. by rewrite sapp_assoc.
Qed.

Lemma decimal_fixed n :
  ∃ w : nat, (1 ≤ w)%nat ∧ (w = 1%nat ∨ (10 ^ N.of_nat (w - 1) ≤ n)%N)
       ∧ (n < 10 ^ N.of_nat w)%N ∧ decimal n = fixed w n.
Proof.
  unfold decimal.
  destruct (decimal_aux_fixed (S (N.to_nat (N.log2 n))) n)
    as (w & Hw & Hmin & Hup & Heq).
  - rewrite Nat2N.inj_succ, N2Nat.id.
    destruct (N.eq_dec n 0%N) as [->|Hn]; [done|].
    destruct (N.log2_spec n) as [_ Hlt]; [lia|].
    eapply N.lt_le_trans; [exact Hlt|].
    apply N.pow_le_mono_l. lia.
  - lia.
  - exists w. split; [done|]. split; [done|]. split; [done|].
    by rewrite Heq, sapp_nil_r.
Qed.

(** ["%0Wd" % n] is [n] on exactly [W] digits when [n] fits. *)
Lemma fmt0_fixed W n :
  (0 < W)%nat → (n < 10 ^ N.of_nat W)%N → fmt0 W n = fixed W n.
Proof.
  intros HW Hn. unfold fmt0.
  destruct (decimal_fixed n) as (w & Hw & Hmin & Hnw & ->).
  rewrite length_fixed.
  assert (Hle : (w ≤ W)%nat).
  { destruct Hmin as [->|Hmin]; [lia|].
    assert (Hlt : (10 ^ N.of_nat (w - 1) < 10 ^ N.of_nat W)%N) by lia.
    apply N.pow_lt_mono_r_iff in Hlt; lia. }
  replace W with ((W - w) + w)%nat at 2 by lia.
  by rewrite fixed_pad.
Qed.

Lemma format_offset_iso8601 off :
  match off with
  | Some o => (-86400000000 < o < 86400000000)%Z
  | None => True
  end →
  format_offset off = iso8601_offset off.
Proof.
  destruct off as [o|]; [|done]. intros Ho.
  unfold format_offset, iso8601_offset. cbv zeta.
  set (a := Z.to_N (Z.abs o)).
  assert (Ha : (a < 86400000000)%N) by (unfold a; lia).
  pose proof (N.mod_lt a 3600000000 ltac:(lia)) as Hmm.
  pose proof (N.mod_lt (a mod 3600000000) 60000000 ltac:(lia)) as Hss.
  pose proof (N.mod_lt ((a mod 3600000000) mod 60000000) 1000000 ltac:(lia))
    as Hus.
  set (m := (a mod 3600000000)%N) in *.
  set (ss := (m mod 60000000)%N) in *.
  rewrite !(fmt0_fixed 2), (fmt0_fixed 6); try lia; try done.
  - change (10 ^ N.of_nat 2)%N with 100%N.
    apply N.Div0.div_lt_upper_bound. lia.
  - change (10 ^ N.of_nat 2)%N with 100%N.
    apply N.Div0.div_lt_upper_bound. lia.
  - change (10 ^ N.of_nat 2)%N with 100%N.
    apply N.Div0.div_lt_upper_bound. lia.
Qed.

(** On a valid [datetime], [isoformat] is the ISO-8601 layout. *)
Lemma isoformat_iso8601 dt : valid_datetime dt → isoformat dt = iso8601 dt.
Proof.
  intros (Hy & Hmo & Hd & Hh & Hmi & Hs & Hus & Hoff).
  unfold isoformat, iso8601, format_time.
  rewrite (fmt0_fixed 4), !(fmt0_fixed 2), (fmt0_fixed 6); try lia;
    try (change (10 ^ N.of_nat 2)%N with 100%N; lia);
    try (change (10 ^ N.of_nat 4)%N with 10000%N; lia);
    try (change (10 ^ N.of_nat 6)%N with 1000000%N; lia).
  rewrite (format_offset_iso8601 _ Hoff).
  by rewrite !sapp_assoc.
Qed.

(** ** The serialization hook *)

(** C8.  [json_encoder] maps a [datetime] to the string [isoformat()]
    renders for it, which for every valid [datetime] is its ISO-8601
    representation, and returns every value that is not a [datetime] as it
    is. *)
Theorem json_encoder_spec (obj : pyval) :
  (∀ dt, obj = VDatetime dt →
     json_encoder obj = VStr (isoformat dt)
     ∧ (valid_datetime dt → json_encoder obj = VStr (iso8601 dt)))
  ∧ (isinstance_datetime obj = false → json_encoder obj = obj).
Proof.
  split.
  - intros dt ->. split; [done|].
    intros Hvalid. simpl. by rewrite (isoformat_iso8601 dt Hvalid).
  - by destruct obj.
Qed.

Lemma json_encoder_spec_witness :
  let launch := mkDatetime 2015 3 7 9 5 0 0 None in
  json_encoder (VDatetime launch) = VStr "2015-03-07T09:05:00"
  ∧ json_encoder (VDatetime launch) = VStr (iso8601 launch)
  ∧ json_encoder (VDate 2015 3 7) = VDate 2015 3 7
  ∧ json_encoder (VDict [("LaunchTime", VDatetime launch)])
    = VDict [("LaunchTime", VDatetime launch)].
Proof.
  intros launch.
  destruct (proj1 (json_encoder_spec (VDatetime launch)) launch eq_refl)
    as (Hiso & Hlayout).
  split; [exact Hiso|]. split.
  - apply Hlayout. unfold valid_datetime, launch. simpl. lia.
  - split.
    + exact (proj2 (json_encoder_spec (VDate 2015 3 7)) eq_refl).
    + exact (proj2 (json_encoder_spec (VDict _)) eq_refl).
Defined.

Example isoformat_naive :
  isoformat (mkDatetime 2015 3 7 9 5 0 0 None) = "2015-03-07T09:05:00".
Proof. reflexivity. Qed.

Example isoformat_aware :
  isoformat (mkDatetime 2024 12 31 23 59 59 1500 (Some (-19800000000)%Z))
  = "2024-12-31T23:59:59.001500-05:30".
Proof. reflexivity. Qed.

Example str_in_yes :
  str_in "Throttling" "An error occurred (Throttling) when calling" = true.
Proof. reflexivity. Qed.

Example str_in_no :
  str_in "Throttling" "An error occurred (Throttled)" = false.
Proof. reflexivity. Qed.

(** ** Loops that do not end *)

(** When every attempt is retried, no amount of fuel makes the loop
    return: there is no cap on the number of attempts. *)
Lemma retry_loop_never_done op_name op kw fuel : ∀ n data st,
  (∀ i, retried (op kw i)) →
  fst (retry_loop fuel op_name op kw n false data st) = None.
Proof.
  induction fuel as [|fuel IH]; intros n data st Hall; [reflexivity|].
  destruct (Hall n) as (msg & Hop & Hwhy).
  destruct (str_in "Throttling" msg) eqn:Hthr.
  - rewrite (retry_loop_throttle _ _ _ _ _ _ _ _ Hop Hthr). by apply IH.
  - destruct Hwhy as [Hwhy|Hwhy]; [done|].
    rewrite (retry_loop_unmatched _ _ _ _ _ _ _ _ Hop Hthr Hwhy). by apply IH.
Qed.

(** X4.  The loop has no cap on attempts: when every invocation raises a
    [ClientError] that is throttled or matches none of the four substrings,
    a non-paginated call does not return, however many attempts it is
    given. *)
Lemma call_never_returns env fuel op_name query kw st c op query' :
  _client (st_self st) = Some c →
  can_paginate c op_name = Returns false →
  getattr c op_name = Returns op →
  compile_query env query = Returns query' →
  (∀ i, retried (op kw i)) →
  fst (call env fuel op_name query kw st) = None.
Proof.
  intros Hc Hpag Hop Hq Hall.
  rewrite (call_non_paginated _ _ _ _ _ _ _ _ _ Hc Hpag Hop Hq).
  pose proof (retry_loop_never_done op_name op kw fuel 0 (VDict [])
                (after st [EvLogDebug]) Hall) as Hnone.
  destruct (retry_loop _ _ _ _ _ _ _ _) as [[[d|e]|] st']; simpl in *; done.
Qed.

(** ** The constructed object *)

(** When the constructor returns, the object holds the attributes
    [__init__] assigned and the client [_create_client] produced. *)
Lemma new_AWSClient_returns env sn rn account_id kw cfg acct self tr :
  effective_config env kw = Returns cfg →
  account_of cfg account_id = Returns acct →
  new_AWSClient env sn rn account_id kw = (Some (Returns self), tr) →
  ∃ c, self = set__client (Some c) (attributes_of cfg sn rn account_id kw acct)
       ∧ fst (_create_client env
                {| st_self := attributes_of cfg sn rn account_id kw acct;
                   st_trace := [] |}) = Some (Returns c).
Proof.
  intros Hcfg Hacct. unfold new_AWSClient.
  rewrite (__init___reaches_create_client _ _ _ _ _ _ _ Hcfg Hacct).
  unfold mbind, M_bind, bind.
  pose proof (_create_client_frames env
                {| st_self := attributes_of cfg sn rn account_id kw acct;
                   st_trace := [] |}) as Hframe.
  destruct (_create_client env _) as [[[c|e]|] st']; simpl in *; [|done..].
  intros [= <- <-]. exists c. by rewrite Hframe.
Qed.

(** [get_awsclient] turns an empty region into no region. *)
Lemma get_awsclient_empty_region env sn account_id kw :
  get_awsclient env sn (VStr "") account_id kw
  = new_AWSClient env sn VNone account_id kw.
Proof. reflexivity. Qed.

(** ** Fuel *)

(** Fuel only bounds the number of attempts: a loop that has ended ends the
    same way with any larger amount. *)
Lemma retry_loop_more_fuel op_name op kw fuel : ∀ n done data st r st',
  retry_loop fuel op_name op kw n done data st = (Some r, st') →
  ∀ fuel', (fuel ≤ fuel')%nat →
  retry_loop fuel' op_name op kw n done data st = (Some r, st').
Proof.
  induction fuel as [|fuel IH]; intros n done data st r st' Hrun fuel' Hle.
  - destruct done; [|done].
    rewrite retry_loop_done in Hrun. by rewrite retry_loop_done.
  - destruct done.
    { rewrite retry_loop_done in Hrun. by rewrite retry_loop_done. }
    destruct fuel' as [|fuel']; [lia|].
    assert (Hle' : (fuel ≤ fuel')%nat) by lia.
    cbn [retry_loop] in *. rewrite bind_emit in *.
    destruct (op kw n) as [d|[msg|cls msg|cls]]; [eauto| |eauto|done].
    rewrite bind_emit in *.
    destruct (str_in "Throttling" msg).
    { rewrite bind_emit in *. eauto. }
    repeat case_match; eauto.
Qed.

(** * Further properties *)

(** ** How the retry loop can end *)

(** Whatever the operation does, a loop that ends has ended in one of three
    ways: with the data it held (it was done, or an error was swallowed),
    with the data of a successful attempt, or with an exception from
    outside [Exception] raised by an attempt. *)
Lemma retry_loop_outcome op_name op kw fuel : ∀ n done data st r st',
  retry_loop fuel op_name op kw n done data st = (Some r, st') →
  r = Returns data
  ∨ (∃ k d, (n ≤ k)%nat ∧ op kw k = Returns d ∧ r = Returns d)
  ∨ (∃ k cls, (n ≤ k)%nat ∧ op kw k = Raises (BaseOnly cls)
              ∧ r = Raises (BaseOnly cls)).
Proof.
  induction fuel as [|fuel IH]; intros n done data st r st' Hrun.
  - destruct done; [|done]. rewrite retry_loop_done in Hrun.
    left. congruence.
  - destruct done.
    { rewrite retry_loop_done in Hrun. left. congruence. }
    cbn [retry_loop] in Hrun. rewrite bind_emit in Hrun.
    assert (Hnext : ∀ st1 b,
      retry_loop fuel op_name op kw (S n) b data st1 = (Some r, st') →
      r = Returns data
      ∨ (∃ k d, (n ≤ k)%nat ∧ op kw k = Returns d ∧ r = Returns d)
      ∨ (∃ k cls, (n ≤ k)%nat ∧ op kw k = Raises (BaseOnly cls)
                  ∧ r = Raises (BaseOnly cls))).
    { intros st1 b H. destruct (IH _ _ _ _ _ _ H) as [?|[H'|H']]; [by left|..].
      - destruct H' as (k & d & Hk & Hop & ->). right; left.
        exists k, d. split; [lia|done].
      - destruct H' as (k & cls & Hk & Hop & ->). right; right.
        exists k, cls. split; [lia|done]. }
    destruct (op kw n) as [d|[msg|cls msg|cls]] eqn:Hop.
    + rewrite retry_loop_done in Hrun. right; left.
      exists n, d. split; [lia|]. split; [done|congruence].
    + rewrite bind_emit in Hrun.
      destruct (str_in "Throttling" msg).
      { rewrite bind_emit in Hrun. eauto. }
      repeat case_match; eauto.
    + eauto.
    + right; right. exists n, cls. split; [lia|]. split; [done|].
      unfold raise in Hrun. congruence.
Qed.

(** The events a loop records: the attempts are numbered consecutively
    from the first one, there are at most as many as the fuel allows, every
    sleep lasts one second, and there are no more sleeps than attempts. *)
Lemma retry_loop_trace op_name op kw fuel : ∀ n done data st,
  ∃ evs,
    snd (retry_loop fuel op_name op kw n done data st) = after st evs
    ∧ invocations evs = seq n (length (invocations evs))
    ∧ (length (invocations evs) ≤ fuel)%nat
    ∧ sleeps evs = repeat 1%Z (length (sleeps evs))
    ∧ (length (sleeps evs) ≤ length (invocations evs))%nat.
Proof.
  induction fuel as [|fuel IH]; intros n done data st.
  - exists []. rewrite after_nil. by destruct done.
  - destruct done.
    { exists []. rewrite after_nil, retry_loop_done. simpl.
      repeat split; lia. }
    assert (Hnext : ∀ pre b data',
      invocations pre = [n] → (length (sleeps pre) ≤ 1)%nat →
      sleeps pre = repeat 1%Z (length (sleeps pre)) →
      ∃ evs,
        snd (retry_loop fuel op_name op kw (S n) b data' (after st pre))
        = after st evs
        ∧ invocations evs = seq n (length (invocations evs))
        ∧ (length (invocations evs) ≤ S fuel)%nat
        ∧ sleeps evs = repeat 1%Z (length (sleeps evs))
        ∧ (length (sleeps evs) ≤ length (invocations evs))%nat).
    { intros pre b data' Hinv Hlen Hsl.
      destruct (IH (S n) b data' (after st pre))
        as (evs & Hrun & Hseq & Hfuel & Hone & Hle).
      exists (pre ++ evs). rewrite Hrun, after_after.
      rewrite invocations_app, sleeps_app, !length_app, Hinv.
      split; [done|]. split.
      { simpl. by rewrite Hseq at 1. }
      split; [simpl; lia|]. split.
      { rewrite repeat_app, <- Hsl, <- Hone. done. }
      simpl. lia. }
    cbn [retry_loop]. rewrite bind_emit.
    destruct (op kw n) as [d|[msg|cls msg|cls]] eqn:Hop.
    + apply (Hnext [EvInvoke op_name kw n]); simpl; (done || lia).
    + rewrite bind_emit, after_after.
      destruct (str_in "Throttling" msg).
      { rewrite bind_emit, after_after.
        apply (Hnext [EvInvoke op_name kw n; EvLogDebug; EvSleep 1]);
          simpl; (done || lia). }
      repeat case_match;
        apply (Hnext [EvInvoke op_name kw n; EvLogDebug]);
        simpl; (done || lia).
    + apply (Hnext [EvInvoke op_name kw n]); simpl; (done || lia).
    + exists [EvInvoke op_name kw n]. simpl. repeat split; lia.
Qed.

(** ** Calls on the non-paginated path, whatever the operation does *)

(** [k] attempts in a row that the handler retries (throttled or matching
    nothing) cost [k] rounds of fuel; each is one invocation, and only the
    throttled ones are followed by a sleep. *)
Lemma retry_loop_skip_retried op_name op kw k : ∀ fuel n data st,
  (∀ i, (i < k)%nat → retried (op kw (n + i))) →
  ∃ evs,
    retry_loop (k + fuel) op_name op kw n false data st
    = retry_loop fuel op_name op kw (n + k) false data (after st evs)
    ∧ invocations evs = seq n k
    ∧ sleeps evs = repeat 1%Z (throttled_count op kw n k).
Proof.
  induction k as [|k IH]; intros fuel n data st Hall.
  - exists []. by rewrite after_nil, Nat.add_0_r.
  - destruct (Hall 0%nat) as (msg & Hop & Hwhy); [lia|].
    rewrite Nat.add_0_r in Hop.
    assert (Htail : ∀ i, (i < k)%nat → retried (op kw (S n + i))).
    { intros i Hi. replace (S n + i)%nat with (n + S i)%nat by lia.
      apply Hall. lia. }
    change (S k + fuel)%nat with (S (k + fuel)).
    replace (n + S k)%nat with (S n + k)%nat by lia.
    cbn [throttled_count]. rewrite Hop. cbn [is_throttled].
    destruct (str_in "Throttling" msg) eqn:Hthr.
    + rewrite (retry_loop_throttle _ _ _ _ _ _ _ _ Hop Hthr).
      destruct (IH fuel (S n) data
                  (after st (throttled_attempt op_name kw n)) Htail)
        as (evs & -> & Hinv & Hsl).
      exists (throttled_attempt op_name kw n ++ evs).
      rewrite after_after, invocations_app, sleeps_app, Hinv, Hsl.
      done.
    + destruct Hwhy as [Hwhy|Hwhy]; [done|].
      rewrite (retry_loop_unmatched _ _ _ _ _ _ _ _ Hop Hthr Hwhy).
      destruct (IH fuel (S n) data
                  (after st [EvInvoke op_name kw n; EvLogDebug]) Htail)
        as (evs & -> & Hinv & Hsl).
      exists ([EvInvoke op_name kw n; EvLogDebug] ++ evs).
      rewrite after_after, invocations_app, sleeps_app, Hinv, Hsl.
      done.
Qed.

(** X1.  However the operation behaves, a non-paginated call that ends
    ends in one of two ways: it returns (through the query, when one was
    compiled) the empty dict or the data of a successful invocation, or it
    raises an exception from outside [Exception] that an invocation
    raised.  No [ClientError] and no other [Exception] raised by the
    operation reaches the caller. *)
Theorem call_non_paginated_ends
    env fuel op_name query kw st c op query' r st' :
  _client (st_self st) = Some c →
  can_paginate c op_name = Returns false →
  getattr c op_name = Returns op →
  compile_query env query = Returns query' →
  call env fuel op_name query kw st = (Some r, st') →
  (∃ data, (data = VDict [] ∨ ∃ k, op kw k = Returns data)
           ∧ r = apply_query query' data)
  ∨ (∃ k cls, op kw k = Raises (BaseOnly cls) ∧ r = Raises (BaseOnly cls)).
Proof.
  intros Hc Hpag Hop Hq.
  rewrite (call_non_paginated _ _ _ _ _ _ _ _ _ Hc Hpag Hop Hq).
  destruct (retry_loop _ _ _ _ _ _ _ _) as [[o|] st1] eqn:Hloop; [|done].
  destruct (retry_loop_outcome _ _ _ _ _ _ _ _ _ _ Hloop)
    as [->|[(k & d & _ & Hk & ->)|(k & cls & _ & Hk & ->)]];
    unfold finish; intros [= <- <-].
  - left. exists (VDict []). split; [by left|done].
  - left. exists d. split; [right; by exists k|done].
  - right. by exists k, cls.
Qed.

Lemma call_non_paginated_ends_witness :
  let boom := Raises (OtherException "ConnectTimeoutError" "timed out") in
  let c := Demo.service [] [] [Demo.throttling; boom] in
  fst (call (Demo.env ∅) 5 "describe_key" None [] (Demo.start c))
  = Some (Returns (VDict [])).
Proof.
  intros boom c.
  destruct (call (Demo.env ∅) 5 "describe_key" None [] (Demo.start c))
    as [r st'] eqn:Hrun.
  assert (Hr : r = Some (Returns (VDict []))).
  { apply (f_equal fst) in Hrun. exact (eq_sym Hrun). }
  subst r.
  destruct (call_non_paginated_ends (Demo.env ∅) 5 "describe_key" None []
              (Demo.start c) c (Demo.scripted [Demo.throttling; boom]) None
              _ st' eq_refl eq_refl eq_refl eq_refl Hrun)
    as [(data & _ & Hdata)|(k & cls & _ & Hbase)].
  - reflexivity.
  - discriminate Hbase.
Defined.

(** X2.  However the operation behaves, and whether or not the loop has
    ended, the interactions of a non-paginated call are the debug log
    followed by the loop's: the attempts are numbered from zero without a
    gap, every [time.sleep] is of one second, and there are never more
    sleeps than attempts. *)
Theorem call_non_paginated_trace
    env fuel op_name query kw st c op query' :
  _client (st_self st) = Some c →
  can_paginate c op_name = Returns false →
  getattr c op_name = Returns op →
  compile_query env query = Returns query' →
  ∃ evs,
    snd (call env fuel op_name query kw st) = after st (EvLogDebug :: evs)
    ∧ invocations evs = seq 0 (length (invocations evs))
    ∧ (length (invocations evs) ≤ fuel)%nat
    ∧ sleeps evs = repeat 1%Z (length (sleeps evs))
    ∧ (length (sleeps evs) ≤ length (invocations evs))%nat.
Proof.
  intros Hc Hpag Hop Hq.
  rewrite (call_non_paginated _ _ _ _ _ _ _ _ _ Hc Hpag Hop Hq).
  destruct (retry_loop_trace op_name op kw fuel 0 false (VDict [])
              (after st [EvLogDebug])) as (evs & Hrun & Hrest).
  exists evs. split; [|exact Hrest].
  rewrite after_after in Hrun. simpl in Hrun. rewrite <- Hrun.
  by destruct (retry_loop _ _ _ _ _ _ _ _) as [[[d|e]|] st1].
Qed.

Lemma call_non_paginated_trace_witness :
  let c := Demo.service [] [] [Demo.throttling; Returns Demo.answer] in
  ∃ evs,
    snd (call (Demo.env ∅) 7 "describe_key" (Some "KeyId") [] (Demo.start c))
    = after (Demo.start c) (EvLogDebug :: evs)
    ∧ invocations evs = seq 0 (length (invocations evs))
    ∧ (length (invocations evs) ≤ 7)%nat
    ∧ sleeps evs = repeat 1%Z (length (sleeps evs))
    ∧ (length (sleeps evs) ≤ length (invocations evs))%nat.
Proof.
  intros c.
  exact (call_non_paginated_trace (Demo.env ∅) 7 "describe_key" (Some "KeyId")
           [] (Demo.start c) c
           (Demo.scripted [Demo.throttling; Returns Demo.answer])
           (Some (Demo.field_query "KeyId")) eq_refl eq_refl eq_refl eq_refl).
Defined.

(** X3.  Attempts the handler retries, then a success: when the first [N]
    invocations each raise a [ClientError] that is throttled or matches
    none of the four substrings and the next one succeeds, [call] returns
    that result (through the query, when one was compiled) after [N + 1]
    invocations, having slept one second once per throttled attempt and
    not at all for the others. *)
Theorem call_retried_then_success
    env fuel op_name query kw st c op query' N d :
  _client (st_self st) = Some c →
  can_paginate c op_name = Returns false →
  getattr c op_name = Returns op →
  compile_query env query = Returns query' →
  (∀ i, (i < N)%nat → retried (op kw i)) →
  op kw N = Returns d →
  (N < fuel)%nat →
  ∃ evs,
    call env fuel op_name query kw st
    = (Some (apply_query query' d), after st (EvLogDebug :: evs))
    ∧ invocations evs = seq 0 (S N)
    ∧ sleeps evs = repeat 1%Z (throttled_count op kw 0 N).
Proof.
  intros Hc Hpag Hop Hq Hall Hd Hfuel.
  rewrite (call_non_paginated _ _ _ _ _ _ _ _ _ Hc Hpag Hop Hq).
  replace fuel with (N + S (fuel - S N))%nat by lia.
  destruct (retry_loop_skip_retried op_name op kw N (S (fuel - S N)) 0
              (VDict []) (after st [EvLogDebug]) Hall)
    as (evs & -> & Hinv & Hsl).
  rewrite (retry_loop_success _ _ _ _ _ _ _ _ Hd).
  exists (evs ++ [EvInvoke op_name kw N]).
  unfold finish. rewrite !after_after.
  split; [done|].
  rewrite invocations_app, sleeps_app, Hinv, Hsl, seq_S. simpl.
  by rewrite app_nil_r.
Qed.

Lemma call_retried_then_success_witness :
  let invalid := Raises (ClientError "An error occurred (ValidationException) when calling the DescribeKey operation: bad key id") in
  let c := Demo.service [] [] [invalid; Demo.throttling; invalid; Returns Demo.answer] in
  let run := call (Demo.env ∅) 4 "describe_key" None [] (Demo.start c) in
  fst run = Some (Returns Demo.answer)
  ∧ sleeps (st_trace (snd run)) = [1%Z]
  ∧ invocations (st_trace (snd run)) = [0; 1; 2; 3]%nat.
Proof.
  intros invalid c run.
  destruct (call_retried_then_success (Demo.env ∅) 4 "describe_key" None []
              (Demo.start c) c
              (Demo.scripted [invalid; Demo.throttling; invalid; Returns Demo.answer])
              None 3 Demo.answer)
    as (evs & Hcall & Hinv & Hsl).
  - reflexivity.
  - reflexivity.
  - reflexivity.
  - reflexivity.
  - intros i Hi. destruct i as [|[|[|i]]]; [| | |lia].
    + eexists. split; [reflexivity|]. right. reflexivity.
    + eexists. split; [reflexivity|]. left. reflexivity.
    + eexists. split; [reflexivity|]. right. reflexivity.
  - reflexivity.
  - lia.
  - unfold run. rewrite Hcall. cbn [fst snd after st_trace].
    split; [reflexivity|].
    change (EvLogDebug :: evs) with ([EvLogDebug] ++ evs).
    rewrite !sleeps_app, !invocations_app, Hinv, Hsl.
    split; reflexivity.
Defined.

Lemma call_never_returns_witness :
  let c := Demo.service [] [] [] in
  fst (call (Demo.env ∅) 50 "describe_key" None [] (Demo.start c)) = None.
Proof.
  intros c.
  apply (call_never_returns (Demo.env ∅) 50 "describe_key" None []
           (Demo.start c) c (Demo.scripted []) None);
    try reflexivity.
  intros i. exists "Throttling: script exhausted". split.
  - unfold Demo.scripted. by destruct i.
  - left. reflexivity.
Defined.

(** X5.  An exception from outside [Exception] ([KeyboardInterrupt],
    [SystemExit]) raised by an invocation, after any number of retried
    attempts, is raised by [call]: no handler of the loop catches it, the
    query is not applied and the operation is not invoked again. *)
Theorem call_base_exception_propagates
    env fuel op_name query kw st c op query' N cls :
  _client (st_self st) = Some c →
  can_paginate c op_name = Returns false →
  getattr c op_name = Returns op →
  compile_query env query = Returns query' →
  (∀ i, (i < N)%nat → retried (op kw i)) →
  op kw N = Raises (BaseOnly cls) →
  (N < fuel)%nat →
  ∃ evs,
    call env fuel op_name query kw st
    = (Some (Raises (BaseOnly cls)), after st (EvLogDebug :: evs))
    ∧ invocations evs = seq 0 (S N).
Proof.
  intros Hc Hpag Hop Hq Hall Hraise Hfuel.
  rewrite (call_non_paginated _ _ _ _ _ _ _ _ _ Hc Hpag Hop Hq).
  replace fuel with (N + S (fuel - S N))%nat by lia.
  destruct (retry_loop_skip_retried op_name op kw N (S (fuel - S N)) 0
              (VDict []) (after st [EvLogDebug]) Hall)
    as (evs & -> & Hinv & _).
  rewrite (retry_loop_base_exception _ _ _ _ _ _ _ _ Hraise).
  exists (evs ++ [EvInvoke op_name kw N]).
  unfold finish. rewrite !after_after.
  split; [done|].
  by rewrite invocations_app, Hinv, seq_S.
Qed.

Lemma call_base_exception_propagates_witness :
  let c := Demo.service [] [] [Demo.throttling; Raises (BaseOnly "KeyboardInterrupt");
                               Returns Demo.answer] in
  let run := call (Demo.env ∅) 9 "describe_key" (Some "KeyId") [] (Demo.start c) in
  fst run = Some (Raises (BaseOnly "KeyboardInterrupt"))
  ∧ invocations (st_trace (snd run)) = [0; 1]%nat.
Proof.
  intros c run.
  destruct (call_base_exception_propagates (Demo.env ∅) 9 "describe_key"
              (Some "KeyId") [] (Demo.start c) c
              (Demo.scripted [Demo.throttling; Raises (BaseOnly "KeyboardInterrupt");
                              Returns Demo.answer])
              (Some (Demo.field_query "KeyId")) 1 "KeyboardInterrupt")
    as (evs & Hcall & Hinv).
  - reflexivity.
  - reflexivity.
  - reflexivity.
  - reflexivity.
  - intros i Hi. destruct i as [|i]; [|lia].
    eexists. split; [reflexivity|]. left. reflexivity.
  - reflexivity.
  - lia.
  - unfold run. rewrite Hcall. cbn [fst snd after st_trace].
    split; [reflexivity|].
    change (EvLogDebug :: evs) with ([EvLogDebug] ++ evs).
    by rewrite !invocations_app, Hinv.
Defined.

(** X6.  [can_paginate] is asked outside any [try]: for a name the
    client does not know it raises ([KeyError] on a botocore client), and
    that exception is raised by [call], although it is an [Exception]; no
    paginator is requested, no method is looked up and nothing is invoked,
    whatever the fuel. *)
Theorem call_unknown_operation env fuel op_name query kw st c query' e :
  _client (st_self st) = Some c →
  compile_query env query = Returns query' →
  can_paginate c op_name = Raises e →
  call env fuel op_name query kw st = (Some (Raises e), after st [EvLogDebug]).
Proof.
  intros Hc Hq Hpag. unfold call.
  rewrite bind_emit, (bind_lift_returns _ _ _ _ Hq).
  unfold mbind, M_bind, bind.
  rewrite (self_client_run (after st [EvLogDebug]) c Hc), Hpag.
  reflexivity.
Qed.

Lemma call_unknown_operation_witness :
  let c := {| can_paginate := λ name,
                if String.eqb name "describe_key" then Returns false
                else Raises (KeyError name);
              get_paginator := λ name, Raises (KeyError name);
              getattr := λ _, Returns (Demo.scripted [Returns Demo.answer]) |} in
  call (Demo.env ∅) 3 "describe_kee" None [] (Demo.start c)
  = (Some (Raises (KeyError "describe_kee")),
     after (Demo.start c) [EvLogDebug]).
Proof.
  intros c.
  exact (call_unknown_operation (Demo.env ∅) 3 "describe_kee" None []
           (Demo.start c) c None (KeyError "describe_kee")
           eq_refl eq_refl eq_refl).
Defined.

(** ** Calls on the paginated path *)

Lemma fetch_pages_trace reqs : ∀ i st,
  ∃ k, snd (fetch_pages reqs i st)
       = after st (map EvPageRequest (seq i k))
       ∧ (k ≤ length reqs)%nat.
Proof.
  induction reqs as [|r reqs IH]; intros i st.
  - exists 0%nat. simpl. by rewrite after_nil.
  - cbn [fetch_pages]. rewrite bind_emit.
    unfold mbind, M_bind, bind. destruct r as [p|e]; cbn [lift].
    + destruct (IH (S i) (after st [EvPageRequest i])) as (k & Hrun & Hk).
      exists (S k). split; [|simpl; lia].
      destruct (fetch_pages reqs (S i) _) as [[[ps|e]|] st1];
        simpl in *; subst st1; by rewrite after_after.
    + exists 1%nat. split; [done|simpl; lia].
Qed.

Lemma sleeps_page_requests l : sleeps (map EvPageRequest l) = [].
Proof. induction l as [|i l IH]; [done|exact IH]. Qed.

Lemma invocations_page_requests l : invocations (map EvPageRequest l) = [].
Proof. induction l as [|i l IH]; [done|exact IH]. Qed.

(** X7.  The wrapper never retries a paginatable operation: whatever the
    paginator does, the call is the same for every amount of fuel, the
    operation's method is never invoked directly and [time.sleep] is never
    called. *)
Theorem call_paginated_no_retry env fuel op_name query kw st c :
  _client (st_self st) = Some c →
  can_paginate c op_name = Returns true →
  (∀ fuel', call env fuel' op_name query kw st
            = call env fuel op_name query kw st)
  ∧ ∃ evs, snd (call env fuel op_name query kw st) = after st evs
           ∧ invocations evs = [] ∧ sleeps evs = [].
Proof.
  intros Hc Hpag.
  assert (Hrun : ∀ f, call env f op_name query kw st
    = match compile_query env query with
      | Returns query' =>
          finish query' (paginated_path op_name kw (after st [EvLogDebug]))
      | Raises e => (Some (Raises e), after st [EvLogDebug])
      end).
  { intros f. destruct (compile_query env query) as [query'|e] eqn:Hq.
    - by apply call_paginated with (c := c).
    - unfold call. rewrite bind_emit. by apply bind_lift_raises. }
  split; [intros fuel'; by rewrite !Hrun|].
  rewrite Hrun.
  destruct (compile_query env query) as [query'|e].
  2:{ by exists [EvLogDebug]. }
  rewrite (paginated_path_run _ _ _ c) by done.
  destruct (get_paginator c op_name) as [paginator|e].
  2:{ exists [EvLogDebug; EvGetPaginator op_name].
      unfold finish. by rewrite after_after. }
  destruct (paginate paginator kw) as [results|e].
  2:{ exists [EvLogDebug; EvGetPaginator op_name; EvPaginate kw].
      unfold finish. by rewrite after_after. }
  unfold build_full_result, mbind, M_bind, bind.
  destruct (fetch_pages_trace (page_requests results) 0
              (after (after st [EvLogDebug])
                 [EvGetPaginator op_name; EvPaginate kw])) as (k & Hk & _).
  exists ([EvLogDebug; EvGetPaginator op_name; EvPaginate kw]
          ++ map EvPageRequest (seq 0 k)).
  rewrite invocations_app, sleeps_app, invocations_page_requests,
    sleeps_page_requests.
  split; [|done].
  destruct (fetch_pages _ _ _) as [[[ps|e]|] st1]; simpl in *; subst st1;
    by rewrite !after_after.
Qed.

Lemma call_paginated_no_retry_witness :
  let c := Demo.service ["list_keys"] [Returns (VInt 1); Demo.throttling] [] in
  call (Demo.env ∅) 0 "list_keys" None [] (Demo.start c)
  = call (Demo.env ∅) 100 "list_keys" None [] (Demo.start c).
Proof.
  intros c.
  exact (proj1 (call_paginated_no_retry (Demo.env ∅) 100 "list_keys" None []
                  (Demo.start c) c eq_refl eq_refl) 0%nat).
Defined.

(** ** What a construction does with the SDK *)

(** A construction that goes through: the object is the attributes
    [__init__] assigned plus the client, and the interactions are those
    of the session branch, the call that opened the session, the
    harness's, and the creation of the client. *)
Lemma new_AWSClient_returns_run env sn rn account_id kw self tr :
  new_AWSClient env sn rn account_id kw = (Some (Returns self), tr) →
  ∃ cfg acct c args,
    effective_config env kw = Returns cfg
    ∧ (is_None (kw_aws_creds kw) = true → account_of cfg account_id = Returns acct)
    ∧ self = set__client (Some c) (attributes_of cfg sn rn account_id kw acct)
    ∧ tr = opening_events self ++ [EvSession args] ++ placebo_events self
           ++ [EvClient sn client_config (if truthy rn then rn else VNone)]
    ∧ opens_with self args.
Proof.
  rewrite new_AWSClient_run.
  destruct (effective_config env kw) as [cfg|e]; [|done].
  destruct (if is_None (kw_aws_creds kw) then _ else _) as [acct|e] eqn:Hacct;
    [|done].
  unfold built_from.
  destruct (_create_client_run env
              {| st_self := attributes_of cfg sn rn account_id kw acct;
                 st_trace := [] |})
    as (r & pre & plc & fin & Hrun & Hpre & _ & _ & _ & Hret).
  rewrite Hrun. destruct r as [c|e]; [|done].
  intros [= <- <-].
  destruct (Hret c eq_refl) as (-> & -> & args & -> & Hargs).
  exists cfg, acct, c, args. split; [done|]. split.
  { intros Hnone. by rewrite Hnone in Hacct. }
  split; [done|]. split; [|exact Hargs].
  cbn [after st_trace st_self app]. by rewrite <- !app_assoc.
Qed.

(** X8.  A construction that goes through has first opened exactly one
    session (with the credentials unpacked, else with the profile, else,
    after the STS client and the role assumption, with three temporary
    keys), then, only when both a harness and a directory were given,
    attached the harness and set it to record (the default mode) or to
    play back, and created the client last; the client is created for the
    given service with connect timeout 5, read timeout 60, at most 30
    attempts in standard mode, and the given region, or no region when
    that is empty or [None]. *)
Theorem construction_interactions env sn rn account_id kw self tr :
  new_AWSClient env sn rn account_id kw = (Some (Returns self), tr) →
  ∃ args,
    tr = opening_events self ++ [EvSession args] ++ placebo_events self
         ++ [EvClient sn
               {| connect_timeout := 5; read_timeout := 60;
                  retries_max_attempts := 30; retries_mode := "standard" |}
               (if truthy rn then rn else VNone)]
    ∧ opens_with self args
    ∧ placebo self = kw_placebo kw
    ∧ placebo_dir self = kw_placebo_dir kw
    ∧ placebo_mode self = default (VStr "record") (kw_placebo_mode kw).
Proof.
  intros Hnew.
  destruct (new_AWSClient_returns_run _ _ _ _ _ _ _ Hnew)
    as (cfg & acct & c & args & _ & _ & Hself & Htr & Hargs).
  exists args. split; [exact Htr|]. split; [exact Hargs|].
  rewrite Hself. cbn. by destruct (kw_placebo_mode kw).
Qed.

Lemma construction_interactions_witness :
  let run := new_AWSClient (Demo.env (Demo.one_account Replay.dev)) "ec2"
               (VStr "") "123456789012" Replay.kwargs_playback in
  snd run = [EvSession (SessProfile (VStr "dev"));
             EvPlaceboAttach (VStr "/tmp/pills"); EvPlaceboPlayback;
             EvClient "ec2" client_config VNone].
Proof.
  intros run. destruct run as [[[self|e]|] tr] eqn:Hrun.
  - destruct (construction_interactions _ _ _ _ _ _ _ Hrun)
      as (args & Htr & Hargs & Hplc & Hdir & Hmode).
    assert (Hself : aws_creds self = VNone ∧ profile self = VStr "dev").
    { apply (f_equal fst) in Hrun. vm_compute in Hrun.
      injection Hrun as <-. by split. }
    destruct Hself as (Hc & Hp).
    unfold placebo_events, opening_events in Htr.
    rewrite Hplc, Hdir, Hmode, Hc, Hp in Htr.
    destruct args as [kw'|p|k s t|]; simpl in Hargs.
    + destruct Hargs as (Htruthy & _). by rewrite Hc in Htruthy.
    + destruct Hargs as (_ & _ & ->). by rewrite Hp in Htr.
    + destruct Hargs as (_ & Hfalsy). by rewrite Hp in Hfalsy.
    + done.
  - vm_compute in Hrun. discriminate Hrun.
  - vm_compute in Hrun. discriminate Hrun.
Defined.

(** X9.  Without a harness, or without a directory for it, a construction
    never touches the harness, however it ends. *)
Theorem no_harness_no_attachment env sn rn account_id kw :
  kw_placebo kw = None ∨ truthy (kw_placebo_dir kw) = false →
  forallb (λ ev, negb (placebo_event ev))
    (snd (new_AWSClient env sn rn account_id kw)) = true.
Proof.
  intros Hno. rewrite new_AWSClient_run.
  destruct (effective_config env kw) as [cfg|e]; [|done].
  destruct (if is_None (kw_aws_creds kw) then _ else _) as [acct|e]; [|done].
  unfold built_from.
  destruct (_create_client_run env
              {| st_self := attributes_of cfg sn rn account_id kw acct;
                 st_trace := [] |})
    as (r & pre & plc & fin & Hrun & Hpre & _ & Hnone & Hfin & _).
  rewrite Hrun.
  assert (Hplc : plc = []).
  { apply Hnone. unfold placebo_events. cbn.
    destruct Hno as [->| ->]; [done|]. by destruct (kw_placebo kw). }
  subst plc.
  assert (Htr : forallb (λ ev, negb (placebo_event ev)) (pre ++ fin) = true).
  { rewrite forallb_app. apply andb_true_iff. split.
    - clear -Hpre. induction pre as [|ev pre IH]; [done|].
      simpl in *. apply andb_true_iff in Hpre as [Hev Hpre].
      rewrite (IH Hpre), andb_true_r. by destruct ev.
    - by destruct Hfin as [->| ->]. }
  by destruct r as [c|e].
Qed.

Lemma no_harness_no_attachment_witness :
  forallb (λ ev, negb (placebo_event ev))
    (snd (new_AWSClient (Demo.env (Demo.one_account Replay.dev)) "ec2"
            (VStr "eu-west-1") "123456789012" Demo.no_kwargs)) = true.
Proof.
  apply no_harness_no_attachment. left. reflexivity.
Defined.

(** X10.  Credentials passed to the constructor (any value but [None])
    keep it from reading the account configuration at all: the account
    need not exist, and [profile], [role_arn] and [external_id] stay
    [None] whatever the account holds.  What follows depends on the value
    alone: a non-empty dict is the one mode selected; a truthy value that
    is not a dict cannot be unpacked, and the construction ends with a
    [TypeError] before any interaction; a falsy value (an empty dict, an
    empty string) leads to a role assumption with [RoleArn=None], or to
    the exception of the STS client when that cannot be obtained. *)
Theorem passed_credentials_skip_account env sn rn account_id kw cfg :
  is_None (kw_aws_creds kw) = false →
  effective_config env kw = Returns cfg →
  let built := new_AWSClient env sn rn account_id kw in
  match kw_aws_creds kw with
  | VDict (_ :: _) => selected_modes (snd built) = [Explicit (kw_aws_creds kw)]
  | creds =>
      if truthy creds then built = (Some (Raises NotAMapping), [])
      else
        match boto3_client env "sts" with
        | Raises e => built = (Some (Raises e), [EvStsClient])
        | Returns _ => selected_modes (snd built) = [AssumedRole VNone None]
        end
  end
  ∧ (∀ self, fst built = Some (Returns self) →
       aws_creds self = kw_aws_creds kw ∧ profile self = VNone
       ∧ role_arn self = VNone ∧ external_id self = VNone).
Proof.
  intros Harg Hcfg built. unfold built.
  rewrite new_AWSClient_run, Hcfg, Harg.
  set (self0 := attributes_of cfg sn rn account_id kw ∅).
  set (st0 := {| st_self := self0; st_trace := [] |}).
  assert (Hattrs : aws_creds self0 = kw_aws_creds kw ∧ profile self0 = VNone
                   ∧ role_arn self0 = VNone ∧ external_id self0 = VNone).
  { unfold self0, attributes_of, profile, role_arn, external_id.
    cbn -[dict_get]. rewrite !Harg. done. }
  destruct Hattrs as (Hc & Hp & Ha & Hx).
  split.
  - assert (Hfalsy : truthy (kw_aws_creds kw) = false →
      match boto3_client env "sts" with
      | Raises e => built_from env self0 = (Some (Raises e), [EvStsClient])
      | Returns _ =>
          selected_modes (snd (built_from env self0)) = [AssumedRole VNone None]
      end).
    { intros Hf.
      assert (Hmap : truthy (aws_creds (st_self st0)) = true →
                     ∃ d, aws_creds (st_self st0) = VDict d).
      { cbn [st_self st0]. by rewrite Hc, Hf. }
      pose proof (_create_client_modes_or_sts env st0 Hmap) as Hrun.
      unfold resolved_mode in Hrun. cbn [st_self st0] in Hrun.
      rewrite Hc, Hf, Hp, Ha, Hx in Hrun. cbn [truthy] in Hrun.
      destruct (boto3_client env "sts") as [sts|e].
      - destruct Hrun as (r & evs & Hrun & Hmodes).
        by rewrite (snd_built_from _ _ _ _ Hrun).
      - unfold built_from. fold st0. by rewrite Hrun. }
    assert (Hnot : truthy (kw_aws_creds kw) = true →
                   (∀ d, kw_aws_creds kw ≠ VDict d) →
                   built_from env self0 = (Some (Raises NotAMapping), [])).
    { intros Ht Hd.
      assert (Hopen : open_session env (st_self st0) st0
                      = (Some (Raises NotAMapping), after st0 [])).
      { rewrite after_nil. apply open_session_not_mapping; cbn [st_self st0];
          by rewrite Hc. }
      destruct (_create_client_split env st0 _ _ Hopen)
        as (r & plc & fin & Hrun & _ & _ & _ & Hfail & _).
      destruct (Hfail _ eq_refl) as (-> & -> & ->).
      unfold built_from. fold st0. by rewrite Hrun. }
    destruct (kw_aws_creds kw) as [| | | | |[|kv d]| |] eqn:Hkw;
      try done; try (by apply Hfalsy); try (by apply Hnot).
    + cbn [truthy]. destruct b; [by apply Hnot|by apply Hfalsy].
    + cbn [truthy]. destruct (negb (z =? 0)%Z) eqn:Hz;
        [by apply Hnot|by apply Hfalsy].
    + cbn [truthy]. destruct (negb (String.eqb s "")) eqn:Hs;
        [by apply Hnot|by apply Hfalsy].
    + destruct l; [by apply Hfalsy|by apply Hnot].
    + assert (Hmap : truthy (aws_creds (st_self st0)) = true →
                     ∃ d', aws_creds (st_self st0) = VDict d').
      { intros _. cbn [st_self st0]. rewrite Hc. by eexists. }
      pose proof (_create_client_modes_or_sts env st0 Hmap) as Hrun.
      unfold resolved_mode in Hrun. cbn [st_self st0] in Hrun.
      rewrite Hc in Hrun. cbn [truthy] in Hrun.
      destruct Hrun as (r & evs & Hrun & Hmodes).
      by rewrite (snd_built_from _ _ _ _ Hrun).
  - intros self. unfold built_from. fold st0.
    pose proof (_create_client_frames env st0) as Hframe.
    destruct (_create_client env st0) as [[[c|e]|] st1]; [|done..].
    cbn [fst]. intros [= <-]. cbn [snd] in Hframe. rewrite Hframe.
    done.
Qed.

Lemma passed_credentials_skip_account_witness :
  let keys := VDict [("aws_access_key_id", VStr "AKIA"); ("aws_secret_access_key", VStr "s3cr3t")] in
  let built creds :=
    new_AWSClient (Demo.env ∅) "ec2" VNone "no-such-account"
      (Replay.kwargs_creds creds) in
  selected_modes (snd (built keys)) = [Explicit keys]
  ∧ selected_modes (snd (built (VDict []))) = [AssumedRole VNone None]
  ∧ built (VStr "AKIA") = (Some (Raises NotAMapping), []).
Proof.
  intros keys built. split; [|split].
  - exact (proj1 (passed_credentials_skip_account (Demo.env ∅) "ec2" VNone
                    "no-such-account" (Replay.kwargs_creds keys) ∅
                    eq_refl eq_refl)).
  - exact (proj1 (passed_credentials_skip_account (Demo.env ∅) "ec2" VNone
                    "no-such-account" (Replay.kwargs_creds (VDict [])) ∅
                    eq_refl eq_refl)).
  - exact (proj1 (passed_credentials_skip_account (Demo.env ∅) "ec2" VNone
                    "no-such-account" (Replay.kwargs_creds (VStr "AKIA")) ∅
                    eq_refl eq_refl)).
Defined.

(** X11.  Configuration errors end the construction before any
    interaction with the SDK: the exception of a failing [get_config], and,
    when no credentials were passed, the [KeyError] of a configuration
    without accounts or without the account. *)
Theorem configuration_errors_propagate env sn rn account_id kw :
  (∀ e, effective_config env kw = Raises e →
     new_AWSClient env sn rn account_id kw = (Some (Raises e), []))
  ∧ (∀ cfg, effective_config env kw = Returns cfg →
       is_None (kw_aws_creds kw) = true →
       (cfg !! "accounts" = None →
          new_AWSClient env sn rn account_id kw
          = (Some (Raises (KeyError "accounts")), []))
       ∧ (∀ accounts, cfg !! "accounts" = Some accounts →
            accounts !! account_id = None →
            new_AWSClient env sn rn account_id kw
            = (Some (Raises (KeyError account_id)), []))).
Proof.
  split.
  - intros e He. by rewrite new_AWSClient_run, He.
  - intros cfg Hcfg Harg. split.
    + intros Hnone. rewrite new_AWSClient_run, Hcfg, Harg.
      unfold account_of. by rewrite Hnone.
    + intros accounts Hsome Hnone. rewrite new_AWSClient_run, Hcfg, Harg.
      unfold account_of. by rewrite Hsome, Hnone.
Qed.

Lemma configuration_errors_propagate_witness :
  new_AWSClient (Demo.env (Demo.one_account ∅)) "ec2" VNone "210987654321"
    Demo.no_kwargs
  = (Some (Raises (KeyError "210987654321")), [])
  ∧ new_AWSClient (Demo.env ∅) "ec2" VNone "210987654321" Demo.no_kwargs
    = (Some (Raises (KeyError "accounts")), []).
Proof.
  split.
  - destruct (configuration_errors_propagate (Demo.env (Demo.one_account ∅))
                "ec2" VNone "210987654321" Demo.no_kwargs) as (_ & Hacct).
    destruct (Hacct (Demo.one_account ∅) eq_refl eq_refl) as (_ & Hmissing).
    apply (Hmissing {[ "123456789012" := ∅ ]}); reflexivity.
  - destruct (configuration_errors_propagate (Demo.env ∅)
                "ec2" VNone "210987654321" Demo.no_kwargs) as (_ & Hacct).
    destruct (Hacct ∅ eq_refl eq_refl) as (Hnone & _).
    apply Hnone. reflexivity.
Defined.

(** ** The constructed object *)

(** X12.  On every constructed object the properties [service_name],
    [region_name] and [account_id] are the constructor's arguments, a
    client is held, and the credential attributes exclude one another: a
    [profile] that is not [None] comes with no credentials, no [role_arn]
    and no [external_id]; a [role_arn] or an [external_id] that is not
    [None] comes with no credentials and no [profile]. *)
Theorem constructed_object env sn rn acct_id kw self tr :
  new_AWSClient env sn rn acct_id kw = (Some (Returns self), tr) →
  service_name self = sn ∧ region_name self = rn ∧ account_id self = acct_id
  ∧ is_Some (_client self)
  ∧ (profile self ≠ VNone →
     aws_creds self = VNone ∧ role_arn self = VNone ∧ external_id self = VNone)
  ∧ (role_arn self ≠ VNone ∨ external_id self ≠ VNone →
     aws_creds self = VNone ∧ profile self = VNone).
Proof.
  intros Hnew.
  destruct (new_AWSClient_returns_run _ _ _ _ _ _ _ Hnew)
    as (cfg & acct & c & pre & _ & _ & -> & _ & _).
  split; [done|]. split; [done|]. split; [done|]. split; [by eexists|].
  unfold profile, role_arn, external_id, attributes_of. cbn -[dict_get].
  set (creds := if is_None (kw_aws_creds kw) then dict_get acct "credentials"
                else kw_aws_creds kw).
  destruct (is_None creds) eqn:Hnone.
  2:{ split; [done|]. by intros [?|?]. }
  assert (Hcreds : creds = VNone) by by destruct creds.
  rewrite Hcreds.
  destruct (acct !! "profile") as [p|] eqn:Hp.
  - split; [done|]. by intros [?|?].
  - rewrite (dict_get_None _ _ Hp). split; [done|]. done.
Qed.

Lemma constructed_object_witness :
  let role : Account :=
    {[ "role_arn" := VStr "arn:aws:iam::123456789012:role/audit";
       "external_id" := VStr "skew-42" ]} in
  let run := new_AWSClient (Demo.env (Demo.one_account role)) "kms"
               (VStr "eu-west-1") "123456789012" Demo.no_kwargs in
  ∃ self, fst run = Some (Returns self)
          ∧ service_name self = "kms" ∧ region_name self = VStr "eu-west-1"
          ∧ profile self = VNone ∧ aws_creds self = VNone.
Proof.
  intros role run. destruct run as [[[self|e]|] tr] eqn:Hrun.
  - destruct (constructed_object _ _ _ _ _ _ _ Hrun)
      as (Hsn & Hrn & _ & _ & _ & Hrole).
    exists self. split; [reflexivity|]. split; [exact Hsn|]. split; [exact Hrn|].
    assert (Harn : role_arn self ≠ VNone).
    { apply (f_equal fst) in Hrun. vm_compute in Hrun.
      injection Hrun as <-. discriminate. }
    destruct (Hrole (or_introl Harn)) as (Hc & Hp). by split.
  - vm_compute in Hrun. discriminate Hrun.
  - vm_compute in Hrun. discriminate Hrun.
Defined.

(** X13.  [get_awsclient] changes what the [region_name] property shows
    for an empty region ([None] instead of the empty string) and nothing
    else about the region: the client is created with the region given,
    and with no region when it is empty or [None], as by the constructor
    itself. *)
Theorem get_awsclient_region env sn rn account_id kw self tr :
  get_awsclient env sn rn account_id kw = (Some (Returns self), tr) →
  region_name self = (if eq_str rn "" then VNone else rn)
  ∧ ∃ pre, tr = pre ++ [EvClient sn client_config
                          (if truthy rn then rn else VNone)].
Proof.
  unfold get_awsclient. intros Hnew.
  destruct (new_AWSClient_returns_run _ _ _ _ _ _ _ Hnew)
    as (cfg & acct & c & args & _ & _ & -> & Htr & _).
  split; [done|].
  eexists (opening_events _ ++ [EvSession args] ++ placebo_events _).
  rewrite Htr, <- !app_assoc. do 5 f_equal.
  destruct rn as [| | |s| | | |]; try reflexivity.
  simpl. destruct (String.eqb s "") eqn:Hs; simpl; by rewrite ?Hs.
Qed.

Lemma get_awsclient_region_witness :
  let run := get_awsclient (Demo.env (Demo.one_account Replay.dev)) "ec2"
               (VStr "") "123456789012" Demo.no_kwargs in
  ∃ self pre, fst run = Some (Returns self)
              ∧ region_name self = VNone
              ∧ snd run = pre ++ [EvClient "ec2" client_config VNone].
Proof.
  intros run. destruct run as [[[self|e]|] tr] eqn:Hrun; unfold run in Hrun.
  - destruct (get_awsclient_region _ _ _ _ _ _ _ Hrun) as (Hrn & pre & Htr).
    by exists self, pre.
  - vm_compute in Hrun. discriminate Hrun.
  - vm_compute in Hrun. discriminate Hrun.
Defined.

(** ** Role assumption *)

(** X14.  Where neither credentials nor a profile are usable,
    [_create_client] asks for an STS client and assumes the role
    [role_arn] under the session name ['skew'], passing [ExternalId]
    exactly when [external_id] is truthy.  A failure to obtain the STS
    client, a failure of [assume_role], or a response without the
    expected keys ends [_create_client] with that exception, before any
    session is opened; otherwise the next interaction opens the session
    with the access key, secret key and session token of the response. *)
Theorem role_assumption env st :
  let self := st_self st in
  truthy (aws_creds self) = false →
  truthy (profile self) = false →
  match boto3_client env "sts" with
  | Raises e =>
      _create_client env st = (Some (Raises e), after st [EvStsClient])
  | Returns sts =>
      let ext := if truthy (external_id self) then Some (external_id self)
                 else None in
      let evs := [EvStsClient; EvAssumeRole (role_arn self) "skew" ext] in
      match assume_role sts (role_arn self) "skew" ext with
      | Raises e => _create_client env st = (Some (Raises e), after st evs)
      | Returns assumed_role =>
          match temporary_keys assumed_role with
          | Raises e =>
              _create_client env st = (Some (Raises e), after st evs)
          | Returns (access_key, secret_key, token) =>
              ∃ r more,
                _create_client env st
                = (Some r,
                   after st (evs ++ EvSession (SessKeys access_key secret_key token)
                                    :: more))
                ∧ forallb (λ ev, negb (session_event ev)) more = true
          end
      end
  end.
Proof.
  intros self Hcreds Hprof.
  pose proof (open_session_role env self st Hcreds Hprof) as Hopen.
  rewrite _create_client_steps. unfold mbind, M_bind, bind. fold self.
  destruct (boto3_client env "sts") as [sts|e]; [|by rewrite Hopen].
  cbv zeta in *.
  destruct (assume_role sts _ _ _) as [assumed_role|e]; [|by rewrite Hopen].
  destruct (temporary_keys assumed_role) as [[[k s] t]|e]; [|by rewrite Hopen].
  rewrite Hopen.
  destruct (boto3_Session env (SessKeys k s t)) as [session|e].
  2:{ by exists (Raises e), []. }
  destruct (attach_placebo_run self session
              (after st ([EvStsClient;
                          EvAssumeRole (role_arn self) "skew"
                            (if truthy (external_id self)
                             then Some (external_id self) else None)]
                         ++ [EvSession (SessKeys k s t)])))
    as (r2 & plc & Hrun & Hplc & _ & _).
  rewrite Hrun.
  assert (Hquiet : forallb (λ ev, negb (session_event ev)) plc = true).
  { clear -Hplc. induction plc as [|ev plc IH]; [done|].
    simpl in *. apply andb_true_iff in Hplc as [Hev Hplc].
    rewrite (IH Hplc), andb_true_r. by destruct ev. }
  destruct r2 as [[]|e].
  2:{ exists (Raises e), plc. split; [|done].
      by rewrite after_after. }
  unfold session_client. rewrite bind_emit. unfold lift.
  eexists _, (plc ++ [_]). split.
  - by rewrite !after_after.
  - rewrite forallb_app, Hquiet. reflexivity.
Qed.

Lemma role_assumption_witness :
  let role : Account :=
    {[ "role_arn" := VStr "arn:aws:iam::123456789012:role/audit";
       "external_id" := VStr "skew-42" ]} in
  let self := attributes_of (Demo.one_account role) "kms" VNone "123456789012"
                Demo.no_kwargs role in
  ∃ r more,
    _create_client (Demo.env (Demo.one_account role))
      {| st_self := self; st_trace := [] |}
    = (Some r,
       {| st_self := self;
          st_trace :=
            [EvStsClient;
             EvAssumeRole (VStr "arn:aws:iam::123456789012:role/audit") "skew"
               (Some (VStr "skew-42"));
             EvSession (SessKeys (VStr "ASIA") (VStr "secret") (VStr "token"))]
            ++ more |})
    ∧ forallb (λ ev, negb (session_event ev)) more = true.
Proof.
  intros role self.
  exact (role_assumption (Demo.env (Demo.one_account role))
           {| st_self := self; st_trace := [] |} eq_refl eq_refl).
Defined.

(** ** The serialization hook, again *)

(** X15.  [json_encoder] never returns a [datetime], and applying it a
    second time changes nothing. *)
Theorem json_encoder_idempotent (obj : pyval) :
  isinstance_datetime (json_encoder obj) = false
  ∧ json_encoder (json_encoder obj) = json_encoder obj.
Proof. split; by destruct obj. Qed.
